(** * Biblioteca: a book catalogue kept in a binary search tree

    Shallow embedding of [src/ABB/biblioteca.c].

    Conventions of the embedding.
    - A C [int] is a [Z].  Signed overflow and the conversion of an
      out-of-range numeral by [sscanf] have no defined behaviour in C; the
      model describes the executions in which every [int] stays in range,
      and computes with the mathematical value.
    - A C string is a [string]: the text before the terminating NUL.
      [strcpy] and the [%[] conversion write without a bound; the model
      describes the executions in which the text fits its buffer.
    - A [Livro *] that is only read is the subtree it points to ([NULL] for
      the null pointer).  The tree is owned by its parent link only, so a
      store through a pointer obtained by a search is a function that
      walks the same search path and rebuilds the tree.
    - [malloc] succeeds.
    - What [printf] writes is a value of [Mensagem]. *)

From Stdlib Require Import ZArith List Bool Lia String Ascii.
From Stdlib Require Import Sorted Permutation.
From Stdlib Require Decimal DecimalFacts DecimalPos DecimalZ DecimalString.
Import ListNotations.

#[local] Open Scope Z_scope.

(** ** Data model *)

(** The fields of [struct Livro] other than the two links. *)
Record Dados : Type := mkDados {
  id : Z;
  titulo : string;
  autor : string;
  disponivel : Z
}.

(** [struct Livro] with its links [esq] and [dir]; [NULL] is the empty tree. *)
Inductive Livro : Type :=
| NULL : Livro
| No (campos : Dados) (esq dir : Livro) : Livro.

(** [struct Biblioteca]: the owner of the root link. *)
Record Biblioteca : Type := mkBiblioteca { raiz : Livro }.

(** The lines the program writes on standard output. *)
Inductive Mensagem : Type :=
| BibliotecaVazia          (* "Biblioteca vazia!" *)
| EmprestadoComSucesso     (* "Livro emprestado com sucesso!" *)
| NaoDisponivel            (* "Livro nao esta disponivel para emprestimo." *)
| DevolvidoComSucesso      (* "Livro devolvido com sucesso!" *)
| JaDisponivel             (* "Livro ja esta disponivel." *)
| NaoEncontrado            (* "Livro nao encontrado." *)
| ErroAbrirLeitura         (* "Erro ao abrir arquivo para leitura." *)
| CarregadosComSucesso     (* "Livros carregados com sucesso!" *)
| Ficha (d : Dados).       (* the five lines printed for one book *)

(** Reading the fields through a pointer; nothing to read behind [NULL]. *)
Definition camposDe (p : Livro) : option Dados :=
  match p with
  | NULL => None
  | No d _ _ => Some d
  end.

(** ** The tree engine *)

Definition criarBiblioteca : Biblioteca := mkBiblioteca NULL.

Definition criarLivro (i : Z) (t a : string) : Livro :=
  No (mkDados i t a 1) NULL NULL.

Fixpoint inserirLivroRecursivo (no : Livro) (i : Z) (t a : string) : Livro :=
  match no with
  | NULL => criarLivro i t a
  | No d e r =>
      if i <? id d then No d (inserirLivroRecursivo e i t a) r
      else if i >? id d then No d e (inserirLivroRecursivo r i t a)
      else no
  end.

Definition inserirLivro (bib : Biblioteca) (i : Z) (t a : string) : Biblioteca :=
  mkBiblioteca (inserirLivroRecursivo (raiz bib) i t a).

Fixpoint buscarLivroRecursivo (no : Livro) (i : Z) : Livro :=
  match no with
  | NULL => NULL
  | No d e r =>
      if id d =? i then no
      else if i <? id d then buscarLivroRecursivo e i
      else buscarLivroRecursivo r i
  end.

Definition buscarLivro (bib : Biblioteca) (i : Z) : Livro :=
  buscarLivroRecursivo (raiz bib) i.

(** The loop of [encontrarMenor] follows [esq] links while there is one. *)
Fixpoint encontrarMenor (no : Livro) : Livro :=
  match no with
  | NULL => NULL
  | No _ e _ =>
      match e with
      | NULL => no
      | No _ _ _ => encontrarMenor e
      end
  end.

(** In the two-children case the four fields of the successor are copied
    into the node, so the node carries the successor's [Dados].  The last
    branch stands for a null [temp], which the code would dereference; it
    is never taken, see [encontrarMenor_No]. *)
Fixpoint removerLivroRecursivo (no : Livro) (i : Z) : Livro :=
  match no with
  | NULL => NULL
  | No d e r =>
      if i <? id d then No d (removerLivroRecursivo e i) r
      else if i >? id d then No d e (removerLivroRecursivo r i)
      else
        match e, r with
        | NULL, _ => r
        | No _ _ _, NULL => e
        | No _ _ _, No _ _ _ =>
            match encontrarMenor r with
            | No temp _ _ => No temp e (removerLivroRecursivo r (id temp))
            | NULL => no
            end
        end
  end.

Definition removerLivro (bib : Biblioteca) (i : Z) : Biblioteca :=
  mkBiblioteca (removerLivroRecursivo (raiz bib) i).

(** The books in the order [listarLivrosRecursivo] prints them. *)
Fixpoint listarLivrosRecursivo (no : Livro) : list Dados :=
  match no with
  | NULL => []
  | No d e r => listarLivrosRecursivo e ++ d :: listarLivrosRecursivo r
  end.

Definition listarLivros (no : Livro) : list Mensagem :=
  match no with
  | NULL => [BibliotecaVazia]
  | No _ _ _ => map Ficha (listarLivrosRecursivo no)
  end.

Fixpoint contarLivros (no : Livro) : Z :=
  match no with
  | NULL => 0
  | No _ e r => 1 + contarLivros e + contarLivros r
  end.

(** The store [livro->disponivel = v] through the pointer that
    [buscarLivroRecursivo no i] returned: the same comparisons lead to the
    same node, whose field is replaced. *)
Fixpoint atribuirDisponivel (no : Livro) (i v : Z) : Livro :=
  match no with
  | NULL => NULL
  | No d e r =>
      if id d =? i then No (mkDados (id d) (titulo d) (autor d) v) e r
      else if i <? id d then No d (atribuirDisponivel e i v) r
      else No d e (atribuirDisponivel r i v)
  end.

Definition emprestarLivro (bib : Biblioteca) (i : Z) : Biblioteca * Mensagem :=
  match buscarLivro bib i with
  | No d _ _ =>
      if disponivel d =? 0 then (bib, NaoDisponivel)
      else (mkBiblioteca (atribuirDisponivel (raiz bib) i 0), EmprestadoComSucesso)
  | NULL => (bib, NaoEncontrado)
  end.

Definition devolverLivro (bib : Biblioteca) (i : Z) : Biblioteca * Mensagem :=
  match buscarLivro bib i with
  | No d _ _ =>
      if disponivel d =? 0
      then (mkBiblioteca (atribuirDisponivel (raiz bib) i 1), DevolvidoComSucesso)
      else (bib, JaDisponivel)
  | NULL => (bib, NaoEncontrado)
  end.

(** ** Balanced saving *)

Definition novaLinha : ascii := ascii_of_nat 10.
Definition barra : ascii := "|"%char.

(** The [%d] conversion of [fprintf]. *)
Definition imprimirInt (z : Z) : string :=
  DecimalString.NilEmpty.string_of_int (Z.to_int z).

(** The text of [fprintf(arquivo, "%d|%s|%s|%d\n", ...)] for one book. *)
Definition formatarLinha (d : Dados) : string :=
  (imprimirInt (id d) ++ String barra (titulo d ++ String barra
    (autor d ++ String barra (imprimirInt (disponivel d) ++ String novaLinha EmptyString))))%string.

(** [vetor[k]] and [vetor[k] = p]; [None] is an access outside the block
    that [malloc] returned. *)
Definition lerVetor (vetor : list Livro) (k : Z) : option Livro :=
  if k <? 0 then None else nth_error vetor (Z.to_nat k).

Fixpoint escreverNat (vetor : list Livro) (k : nat) (p : Livro) : option (list Livro) :=
  match vetor, k with
  | [], _ => None
  | _ :: resto, O => Some (p :: resto)
  | x :: resto, S k' =>
      match escreverNat resto k' p with
      | Some resto' => Some (x :: resto')
      | None => None
      end
  end.

Definition escreverVetor (vetor : list Livro) (k : Z) (p : Livro) : option (list Livro) :=
  if k <? 0 then None else escreverNat vetor (Z.to_nat k) p.

(** [armazenarLivrosEmOrdem] threads the vector and [*pos]. *)
Fixpoint armazenarLivrosEmOrdem (no : Livro) (vetor : list Livro) (pos : Z)
  : option (list Livro * Z) :=
  match no with
  | NULL => Some (vetor, pos)
  | No _ e r =>
      match armazenarLivrosEmOrdem e vetor pos with
      | Some (vetor1, pos1) =>
          match escreverVetor vetor1 pos1 no with
          | Some vetor2 => armazenarLivrosEmOrdem r vetor2 (pos1 + 1)
          | None => None
          end
      | None => None
      end
  end.

(** The file is the text written so far.  The recursion is on the width of
    the interval, which [fuel] bounds; [None] is an exhausted [fuel], an
    access outside the vector or a null element. *)
Fixpoint salvarBalanceadoRecursivo (fuel : nat) (vetor : list Livro)
    (inicio fim : Z) (arquivo : string) : option string :=
  if inicio <=? fim then
    match fuel with
    | O => None
    | S f =>
        let meio := (inicio + fim) ÷ 2 in
        match lerVetor vetor meio with
        | Some (No livro _ _) =>
            match salvarBalanceadoRecursivo f vetor inicio (meio - 1)
                    (arquivo ++ formatarLinha livro)%string with
            | Some arquivo1 => salvarBalanceadoRecursivo f vetor (meio + 1) fim arquivo1
            | None => None
            end
        | _ => None
        end
    end
  else Some arquivo.

(** The block of [n] pointers has indeterminate contents, here [NULL]s;
    every slot is written before it is read. *)
Definition salvarLivrosBalanceado (no : Livro) (arquivo : string) : option string :=
  let n := contarLivros no in
  let vetor := repeat NULL (Z.to_nat n) in
  match armazenarLivrosEmOrdem no vetor 0 with
  | Some (vetor1, _) =>
      salvarBalanceadoRecursivo (Z.to_nat n) vetor1 0 (n - 1) arquivo
  | None => None
  end.

Definition salvarLivros (no : Livro) (arquivo : string) : option string :=
  salvarLivrosBalanceado no arquivo.

(** ** Loading *)

(** [fgets(linha, n + 1, arquivo)]: at most [n] characters, up to and
    including the first line break; the second component is what is left
    of the file. *)
Fixpoint fgets (n : nat) (arquivo : string) : string * string :=
  match n, arquivo with
  | O, _ => (EmptyString, arquivo)
  | S _, EmptyString => (EmptyString, EmptyString)
  | S n', String c resto =>
      if Ascii.eqb c novaLinha then (String c EmptyString, resto)
      else let (l, r) := fgets n' resto in (String c l, r)
  end.

Definition isspace (c : ascii) : bool :=
  let n := nat_of_ascii c in
  (n =? 32)%nat || ((9 <=? n)%nat && (n <=? 13)%nat).

Definition digito (c : ascii) : option Z :=
  let n := Z.of_nat (nat_of_ascii c) in
  if (48 <=? n) && (n <=? 57) then Some (n - 48) else None.

Fixpoint pularEspacos (s : string) : string :=
  match s with
  | EmptyString => EmptyString
  | String c r => if isspace c then pularEspacos r else s
  end.

Fixpoint lerDigitos (s : string) (acc : Z) : Z * string :=
  match s with
  | EmptyString => (acc, EmptyString)
  | String c r =>
      match digito c with
      | Some k => lerDigitos r (10 * acc + k)
      | None => (acc, s)
      end
  end.

(** One digit at least, then as many as follow. *)
Definition lerNatural (s : string) : option (Z * string) :=
  match s with
  | EmptyString => None
  | String c r =>
      match digito c with
      | Some k => Some (lerDigitos r k)
      | None => None
      end
  end.

(** The [%d] conversion of [sscanf]: white space, an optional sign, then
    at least one digit.  The value is the number the numeral writes; it is
    the C result where that number is a value of [int] ([intC] below), and
    the C standard leaves the conversion undefined elsewhere. *)
Definition lerInt (s : string) : option (Z * string) :=
  match pularEspacos s with
  | EmptyString => None
  | String c r =>
      if Ascii.eqb c "-"%char then
        match lerNatural r with
        | Some (z, resto) => Some (- z, resto)
        | None => None
        end
      else if Ascii.eqb c "+"%char then lerNatural r
      else lerNatural (String c r)
  end.

(** The [%[^|]] conversion: the longest prefix without a bar; it fails on
    an empty one. *)
Fixpoint ateBarra (s : string) : string * string :=
  match s with
  | EmptyString => (EmptyString, EmptyString)
  | String c r =>
      if Ascii.eqb c barra then (EmptyString, s)
      else let (t, resto) := ateBarra r in (String c t, resto)
  end.

Definition lerCampo (s : string) : option (string * string) :=
  match ateBarra s with
  | (EmptyString, _) => None
  | (String c t, resto) => Some (String c t, resto)
  end.

(** The bar of the format matches one bar of the input. *)
Definition lerBarra (s : string) : option string :=
  match s with
  | String c r => if Ascii.eqb c barra then Some r else None
  | EmptyString => None
  end.

(** [sscanf(linha, "%d|%[^|]|%[^|]|%d", &id, titulo, autor, &disponivel)].
    The four locals of [carregarLivros] are a [Dados]; the conversions
    assign from left to right and stop at the first failure, leaving the
    remaining locals as they were.  The first component is the number of
    locals assigned (where the input ends before the first conversion the
    C function returns [EOF]; the caller ignores the result either way).
    [linha] is the text the C function reads, which ends at the first zero
    byte of the buffer: on a line without one, whose numerals are values of
    [int] and whose texts fit the buffers ([linhaNoDominio] below), this is
    the C function. *)
Definition sscanf (linha : string) (v : Dados) : nat * Dados :=
  match lerInt linha with
  | None => (0%nat, v)
  | Some (i, s1) =>
      let v1 := mkDados i (titulo v) (autor v) (disponivel v) in
      match lerBarra s1 with
      | None => (1%nat, v1)
      | Some s2 =>
          match lerCampo s2 with
          | None => (1%nat, v1)
          | Some (t, s3) =>
              let v2 := mkDados i t (autor v) (disponivel v) in
              match lerBarra s3 with
              | None => (2%nat, v2)
              | Some s4 =>
                  match lerCampo s4 with
                  | None => (2%nat, v2)
                  | Some (a, s5) =>
                      let v3 := mkDados i t a (disponivel v) in
                      match lerBarra s5 with
                      | None => (3%nat, v3)
                      | Some s6 =>
                          match lerInt s6 with
                          | None => (3%nat, v3)
                          | Some (dsp, _) => (4%nat, mkDados i t a dsp)
                          end
                      end
                  end
              end
          end
      end
  end.

(** The body of the [while] loop once [fgets] has filled [linha]. *)
Definition carregarLinha (linha : string) (st : Dados * Biblioteca)
  : Dados * Biblioteca :=
  let (v, bib) := st in
  let v1 := snd (sscanf linha v) in
  let bib1 := inserirLivro bib (id v1) (titulo v1) (autor v1) in
  match buscarLivro bib1 (id v1) with
  | No _ _ _ =>
      (v1, mkBiblioteca (atribuirDisponivel (raiz bib1) (id v1) (disponivel v1)))
  | NULL => (v1, bib1)
  end.

(** The [while] loop: [fgets] returns [NULL] exactly when nothing is left
    to read.  Every turn consumes at least one character, which [fuel]
    counts; [None] is an exhausted [fuel]. *)
Fixpoint carregarLinhas (fuel : nat) (arquivo : string) (st : Dados * Biblioteca)
  : option (Dados * Biblioteca) :=
  match arquivo with
  | EmptyString => Some st
  | String _ _ =>
      match fuel with
      | O => None
      | S f =>
          let (linha, resto) := fgets 255 arquivo in
          carregarLinhas f resto (carregarLinha linha st)
      end
  end.

(** [ficheiros] is the file system [fopen] looks the name up in; [lixo] is
    the indeterminate initial content of the four locals. *)
Definition carregarLivros (ficheiros : string -> option string) (lixo : Dados)
    (bib : Biblioteca) (nomeArquivo : string)
  : option (Biblioteca * list Mensagem) :=
  match ficheiros nomeArquivo with
  | None => Some (bib, [ErroAbrirLeitura])
  | Some arquivo =>
      match carregarLinhas (String.length arquivo) arquivo (lixo, bib) with
      | Some (_, bib1) => Some (bib1, [CarregadosComSucesso])
      | None => None
      end
  end.

(** ** Vocabulary of the specification *)

(** [todos P no]: every book of the tree satisfies [P]. *)
Fixpoint todos (P : Dados -> Prop) (no : Livro) : Prop :=
  match no with
  | NULL => True
  | No d e r => P d /\ todos P e /\ todos P r
  end.

(** The search-tree invariant: at every node the identifiers on the left
    are strictly smaller and those on the right strictly larger. *)
Fixpoint abb (no : Livro) : Prop :=
  match no with
  | NULL => True
  | No d e r =>
      todos (fun x => id x < id d) e /\ todos (fun x => id d < id x) r /\
      abb e /\ abb r
  end.

(** The identifiers in traversal order. *)
Definition ids (no : Livro) : list Z := map id (listarLivrosRecursivo no).

(** What a caller of [buscarLivro] reads behind the returned pointer. *)
Definition registro (no : Livro) (i : Z) : option Dados :=
  camposDe (buscarLivroRecursivo no i).

(** The nodes in traversal order, as [armazenarLivrosEmOrdem] stores them. *)
Fixpoint nos (no : Livro) : list Livro :=
  match no with
  | NULL => []
  | No _ e r => nos e ++ no :: nos r
  end.

(** The shape of a tree: the identifiers with the links, the other fields
    forgotten. *)
Inductive Forma : Type :=
| Vazia : Forma
| Ramo (i : Z) (e r : Forma) : Forma.

Fixpoint forma (no : Livro) : Forma :=
  match no with
  | NULL => Vazia
  | No d e r => Ramo (id d) (forma e) (forma r)
  end.

(** The leaves of a shape with their depth, the root being at depth [p]. *)
Fixpoint folhas (p : nat) (f : Forma) : list (Z * nat) :=
  match f with
  | Vazia => []
  | Ramo i Vazia Vazia => [(i, p)]
  | Ramo _ e r => folhas (S p) e ++ folhas (S p) r
  end.

(** [inserirLivroRecursivo] seen on the shape. *)
Fixpoint inserirForma (f : Forma) (i : Z) : Forma :=
  match f with
  | Vazia => Ramo i Vazia Vazia
  | Ramo j e r =>
      if i <? j then Ramo j (inserirForma e i) r
      else if i >? j then Ramo j e (inserirForma r i)
      else f
  end.

(** The arguments of a call of [inserirLivro] and its identifier. *)
Definition chave (x : Z * string * string) : Z := fst (fst x).

(** A sequence of calls of [inserirLivro]. *)
Definition inserirTodos (bib : Biblioteca) (l : list (Z * string * string))
  : Biblioteca :=
  fold_left (fun b x => inserirLivro b (chave x) (snd (fst x)) (snd x)) l bib.

(** The record a call [inserirLivro bib i t a] creates. *)
Definition novoRegistro (x : Z * string * string) : Dados :=
  mkDados (chave x) (snd (fst x)) (snd x) 1.

Fixpoint contem (c : ascii) (s : string) : bool :=
  match s with
  | EmptyString => false
  | String c' r => Ascii.eqb c' c || contem c r
  end.

(** A text field that the line format carries unchanged: not empty, no
    bar, no line break. *)
Definition campoValido (s : string) : Prop :=
  s <> EmptyString /\ contem barra s = false /\ contem novaLinha s = false.

(** A book whose line [fgets] reads in one piece and [sscanf] splits into
    the four fields that were written. *)
Definition linhaValida (d : Dados) : Prop :=
  campoValido (titulo d) /\ campoValido (autor d) /\
  (String.length (formatarLinha d) <= 255)%nat.

(** A book whose line [fgets] reads in one piece. *)
Definition linhaInteira (d : Dados) : Prop :=
  contem novaLinha (titulo d) = false /\ contem novaLinha (autor d) = false /\
  (String.length (formatarLinha d) <= 255)%nat.

(** The text of consecutive calls of [fprintf]. *)
Fixpoint linhas (l : list Dados) : string :=
  match l with
  | [] => EmptyString
  | d :: l' => (formatarLinha d ++ linhas l')%string
  end.

(** The indices in the order [salvarBalanceadoRecursivo] visits them. *)
Fixpoint ordemMeios (fuel : nat) (inicio fim : Z) : list Z :=
  if inicio <=? fim then
    match fuel with
    | O => []
    | S f =>
        let meio := (inicio + fim) ÷ 2 in
        meio :: ordemMeios f inicio (meio - 1) ++ ordemMeios f (meio + 1) fim
    end
  else [].

(** What one turn of the loading loop does to the tree when the line is
    the one written for [d]. *)
Definition carregarRegistro (no : Livro) (d : Dados) : Livro :=
  atribuirDisponivel (inserirLivroRecursivo no (id d) (titulo d) (autor d))
    (id d) (disponivel d).

(** A file system with one file. *)
Definition umFicheiro (nome conteudo : string) : string -> option string :=
  fun n => if String.eqb n nome then Some conteudo else None.

(** Saving to the file [nome] and loading that file into a new catalogue. *)
Definition salvarECarregar (nome : string) (lixo : Dados) (bib : Biblioteca)
  : option Biblioteca :=
  match salvarLivros (raiz bib) EmptyString with
  | Some arquivo =>
      match carregarLivros (umFicheiro nome arquivo) lixo criarBiblioteca nome with
      | Some (bib1, _) => Some bib1
      | None => None
      end
  | None => None
  end.

(** The books other than the one with identifier [i]. *)
Definition outro (i : Z) (d : Dados) : bool := negb (id d =? i).

(** The book [d] with [v] as its availability. *)
Definition comDisponivel (v : Z) (d : Dados) : Dados :=
  mkDados (id d) (titulo d) (autor d) v.

(** The value [lerDigitos] has accumulated after the digits of [u]. *)
Fixpoint acumular (u : Decimal.uint) (acc : Z) : Z :=
  match u with
  | Decimal.Nil => acc
  | Decimal.D0 u => acumular u (10 * acc + 0)
  | Decimal.D1 u => acumular u (10 * acc + 1)
  | Decimal.D2 u => acumular u (10 * acc + 2)
  | Decimal.D3 u => acumular u (10 * acc + 3)
  | Decimal.D4 u => acumular u (10 * acc + 4)
  | Decimal.D5 u => acumular u (10 * acc + 5)
  | Decimal.D6 u => acumular u (10 * acc + 6)
  | Decimal.D7 u => acumular u (10 * acc + 7)
  | Decimal.D8 u => acumular u (10 * acc + 8)
  | Decimal.D9 u => acumular u (10 * acc + 9)
  end.

(** The text does not start with a digit. *)
Definition semDigito (s : string) : Prop :=
  match s with
  | EmptyString => True
  | String c _ => digito c = None
  end.

(** The line without its line break. *)
Definition corpo (d : Dados) : string :=
  (imprimirInt (id d) ++ String barra (titulo d ++ String barra
    (autor d ++ String barra (imprimirInt (disponivel d)))))%string.

(** The integers [inicio], [inicio + 1], ... : [n] of them. *)
Fixpoint intervalo (inicio : Z) (n : nat) : list Z :=
  match n with
  | O => []
  | S n' => inicio :: intervalo (inicio + 1) n'
  end.

(** ** Example catalogues and files *)

Definition nl : string := String novaLinha EmptyString.

Definition lixoExemplo : Dados := mkDados 0 "?" "?" 0.

(** Three books, inserted 2, 1, 3. *)
Definition catalogoExemplo : Biblioteca :=
  inserirTodos criarBiblioteca
    [(2, "B", "b"); (1, "A", "a"); (3, "C", "c")]%string.

(** Two books, the second with an empty title. *)
Definition catalogoTituloVazio : Biblioteca :=
  inserirTodos criarBiblioteca
    [(1, "A", "B"); (2, EmptyString, "C")]%string.

(** The books of [cadeia textos]. *)
Definition livroDe (textos : Z -> string * string) (i : Z) : Dados :=
  mkDados i (fst (textos i)) (snd (textos i)) 1.

(** The identifiers 1 to 7 inserted in increasing order, with the title and
    the author [textos] gives for each. *)
Definition cadeia (textos : Z -> string * string) : Biblioteca :=
  inserirTodos criarBiblioteca
    (map (fun i => (i, fst (textos i), snd (textos i))) [1; 2; 3; 4; 5; 6; 7]).

(** The title of book 1 holds a line break followed by a digit. *)
Definition textosQuebrados (i : Z) : string * string :=
  if i =? 1 then (("a" ++ nl ++ "9")%string, "x"%string)
  else ("b"%string, "x"%string).

Definition cadeiaDireita : Forma :=
  Ramo 1 Vazia (Ramo 2 Vazia (Ramo 3 Vazia (Ramo 4 Vazia
    (Ramo 5 Vazia (Ramo 6 Vazia (Ramo 7 Vazia Vazia)))))).

Definition arvoreCheia : Forma :=
  Ramo 4 (Ramo 2 (Ramo 1 Vazia Vazia) (Ramo 3 Vazia Vazia))
         (Ramo 6 (Ramo 5 Vazia Vazia) (Ramo 7 Vazia Vazia)).


(** ** Printing by levels *)

(** What [imprimirPorNiveis] prints for one book: the identifier and the
    title. *)
Definition linhaNivel (d : Dados) : Z * string := (id d, titulo d).

(** [if (p != NULL) fila[fim++] = p;] *)
Definition enfileirar (fila : list Livro) (fim : Z) (p : Livro)
  : option (list Livro * Z) :=
  match p with
  | NULL => Some (fila, fim)
  | No _ _ _ =>
      match escreverVetor fila fim p with
      | Some fila1 => Some (fila1, fim + 1)
      | None => None
      end
  end.

(** The [while (inicio < fim)] loop of [imprimirPorNiveis]; [saida] is what
    has been printed.  Every turn takes one node out of the queue, which
    [fuel] counts; [None] is an exhausted [fuel], an access outside the
    block of the queue or a null element. *)
Fixpoint percorrerFila (fuel : nat) (fila : list Livro) (inicio fim : Z)
    (saida : list (Z * string)) : option (list (Z * string)) :=
  if inicio <? fim then
    match fuel with
    | O => None
    | S f =>
        match lerVetor fila inicio with
        | Some (No d e r) =>
            match enfileirar fila fim e with
            | Some (fila1, fim1) =>
                match enfileirar fila1 fim1 r with
                | Some (fila2, fim2) =>
                    percorrerFila f fila2 (inicio + 1) fim2
                      (saida ++ [linhaNivel d])
                | None => None
                end
            | None => None
            end
        | _ => None
        end
    end
  else Some saida.

(** The queue is a block of 1000 pointers with indeterminate contents,
    here [NULL]s. *)
Definition imprimirPorNiveis (no : Livro) : option (list (Z * string)) :=
  match no with
  | NULL => Some []
  | No _ _ _ =>
      match escreverVetor (repeat NULL 1000) 0 no with
      | Some fila =>
          percorrerFila (Z.to_nat (contarLivros no)) fila 0 1 []
      | None => None
      end
  end.

(** ** Further vocabulary *)

(** The number of nodes on the longest path from the root. *)
Fixpoint alturaForma (f : Forma) : nat :=
  match f with
  | Vazia => O
  | Ramo _ e r => S (Nat.max (alturaForma e) (alturaForma r))
  end.

Definition altura (no : Livro) : nat := alturaForma (forma no).

(** The books at depth [k], from left to right. *)
Fixpoint nivel (k : nat) (no : Livro) {struct no} : list (Z * string) :=
  match no with
  | NULL => []
  | No d e r =>
      match k with
      | O => [linhaNivel d]
      | S k' => nivel k' e ++ nivel k' r
      end
  end.

(** The books level by level: depth 0, then depth 1, and so on. *)
Definition porNiveis (no : Livro) : list (Z * string) :=
  flat_map (fun k => nivel k no) (seq 0 (altura no)).

(** The links of a node that are not null, left first. *)
Definition naoNulo (p : Livro) : list Livro :=
  match p with
  | NULL => []
  | No _ _ _ => [p]
  end.

Definition filhos (p : Livro) : list Livro :=
  match p with
  | NULL => []
  | No _ e r => naoNulo e ++ naoNulo r
  end.

(** A pointer to a node. *)
Definition ehNo (p : Livro) : Prop :=
  match p with
  | NULL => False
  | No _ _ _ => True
  end.

(** The number of nodes of the trees of a queue. *)
Definition tamanho (q : list Livro) : nat := List.length (flat_map nos q).

(** Breadth-first printing with an unbounded queue held in a list. *)
Fixpoint larguraLista (fuel : nat) (q : list Livro) : option (list (Z * string)) :=
  match q with
  | [] => Some []
  | p :: q' =>
      match fuel, p with
      | S f, No d _ _ =>
          match larguraLista f (q' ++ filhos p) with
          | Some saida => Some (linhaNivel d :: saida)
          | None => None
          end
      | _, _ => None
      end
  end.

(** The books at depth [k] of the trees of a queue, and the levels of a
    queue down to depth [h]. *)
Definition nivelFila (k : nat) (q : list Livro) : list (Z * string) :=
  flat_map (nivel k) q.

Definition niveisFila (h : nat) (q : list Livro) : list (Z * string) :=
  flat_map (fun k => nivelFila k q) (seq 0 h).

(** The shape that the midpoints of the interval [inicio .. fim] of the
    increasing list [s] give: the midpoint at the root, the midpoints of
    the two halves below. *)
Fixpoint equilibrada (fuel : nat) (s : list Z) (inicio fim : Z) : Forma :=
  if inicio <=? fim then
    match fuel with
    | O => Vazia
    | S f =>
        let meio := (inicio + fim) ÷ 2 in
        Ramo (nth (Z.to_nat meio) s 0)
             (equilibrada f s inicio (meio - 1))
             (equilibrada f s (meio + 1) fim)
    end
  else Vazia.

(** The number of nodes of a shape. *)
Fixpoint nosForma (f : Forma) : nat :=
  match f with
  | Vazia => O
  | Ramo _ e r => S (nosForma e + nosForma r)
  end.

(** A chain of [n] right links with the identifiers [i], [i + 1], ... *)
Fixpoint cadeiaDe (n : nat) (i : Z) : Livro :=
  match n with
  | O => NULL
  | S n' => No (mkDados i "t" "a" 1) NULL (cadeiaDe n' (i + 1))
  end.

(** The books of [catalogoExemplo] inserted 1, 2, 3: a chain. *)
Definition catalogoCadeia : Biblioteca :=
  inserirTodos criarBiblioteca
    [(1, "A", "a"); (2, "B", "b"); (3, "C", "c")]%string.

(** ** The text the conversions are defined on *)

Definition byteNulo : ascii := ascii_of_nat 0.

(** The values of an [int]. *)
Definition intC (z : Z) : Prop := -2147483648 <= z <= 2147483647.

(** A line on which [sscanf] above is the C function, for buffers
    [titulo[MAX_TITULO]] and [autor[MAX_AUTOR]] (the two constants are
    declared in the header): the line holds no zero byte (the C function
    reads [linha] up to the first one), every numeral a [%d] converts is a
    value of [int], and every text a [%[^|]] converts fits its buffer with
    the terminating zero.  The identifier is converted when one field at
    least is, the title when two are, the author when three are, the
    availability when four are. *)
Definition linhaNoDominio (MAX_TITULO MAX_AUTOR : nat) (linha : string) : Prop :=
  contem byteNulo linha = false /\
  forall v,
    ((1 <= fst (sscanf linha v))%nat -> intC (id (snd (sscanf linha v)))) /\
    ((2 <= fst (sscanf linha v))%nat ->
       (String.length (titulo (snd (sscanf linha v))) < MAX_TITULO)%nat) /\
    ((3 <= fst (sscanf linha v))%nat ->
       (String.length (autor (snd (sscanf linha v))) < MAX_AUTOR)%nat) /\
    (fst (sscanf linha v) = 4%nat -> intC (disponivel (snd (sscanf linha v)))).

(** The pieces the calls of [fgets(linha, 256, arquivo)] cut a file into,
    in the order they are read: the lines with their line break, a line of
    more than 255 characters in several pieces. *)
Fixpoint pedacosAux (fuel : nat) (arquivo : string) : list string :=
  match arquivo with
  | EmptyString => []
  | String _ _ =>
      match fuel with
      | O => []
      | S f =>
          let (linha, resto) := fgets 255 arquivo in
          linha :: pedacosAux f resto
      end
  end.

Definition pedacos (arquivo : string) : list string :=
  pedacosAux (String.length arquivo) arquivo.

(** One turn of the loading loop on the locals and the tree: [sscanf]
    assigns what it converts, the book is inserted with the locals and the
    availability is stored behind the identifier. *)
Definition passoCarga (st : Dados * Livro) (linha : string) : Dados * Livro :=
  (snd (sscanf linha (fst st)),
   carregarRegistro (snd st) (snd (sscanf linha (fst st)))).

(** The locals and the tree after the pieces [ls], from the locals [lixo]
    and the tree [no]. *)
Definition aposLinhas (lixo : Dados) (no : Livro) (ls : list string)
  : Dados * Livro :=
  fold_left passoCarga ls (lixo, no).



(** A file whose second line repeats the identifier of the first with
    another title, author and availability. *)
Definition arquivoRepetido : string :=
  ("1|A|B|1" ++ nl ++ "1|X|Y|0" ++ nl)%string.

(** * Properties *)

Create HintDb biblioteca.

(** ** Comparisons and lists *)

Ltac comparar :=
  repeat match goal with
  | |- context [?a >? ?b] => rewrite (Z.gtb_ltb a b)
  | H : context [?a >? ?b] |- _ => rewrite (Z.gtb_ltb a b) in H
  | |- context [?a <? ?b] =>
      let Hc := fresh "Hc" in destruct (Z.ltb_spec a b) as [Hc|Hc]
  | |- context [?a =? ?b] =>
      let Hc := fresh "Hc" in destruct (Z.eqb_spec a b) as [Hc|Hc]
  | |- context [?a <=? ?b] =>
      let Hc := fresh "Hc" in destruct (Z.leb_spec a b) as [Hc|Hc]
  end; try lia.

Lemma ordenada_app (l1 l2 : list Z) (x : Z) :
  StronglySorted Z.lt (l1 ++ x :: l2) <->
  StronglySorted Z.lt l1 /\ StronglySorted Z.lt l2 /\
  Forall (fun y => y < x) l1 /\ Forall (fun y => x < y) l2.
Proof.
  induction l1 as [|a l1 IH]; simpl.
  - split.
    + intros H. apply StronglySorted_inv in H. destruct H as [H1 H2].
      repeat split; auto; constructor.
    + intros (_ & H2 & _ & H4). constructor; assumption.
  - split.
    + intros H. apply StronglySorted_inv in H. destruct H as [H1 H2].
      apply IH in H1. destruct H1 as (S1 & S2 & F1 & F2).
      rewrite Forall_app in H2. destruct H2 as [H2 H3].
      repeat split; auto.
      * constructor; assumption.
      * constructor; auto. now inversion H3.
    + intros (S1 & S2 & F1 & F2).
      apply StronglySorted_inv in S1. destruct S1 as [S1 F3].
      inversion F1 as [|? ? Hax F1']; subst.
      constructor.
      * apply IH. auto.
      * rewrite Forall_app. split; auto.
        constructor; auto.
        eapply Forall_impl; [|exact F2]. simpl. intros; lia.
Qed.

Lemma ordenada_NoDup (l : list Z) : StronglySorted Z.lt l -> NoDup l.
Proof.
  induction 1 as [|a l HS IH HF]; constructor; auto.
  intros Hin. rewrite Forall_forall in HF. specialize (HF _ Hin). lia.
Qed.

Lemma ordenada_filter (p : Dados -> bool) (l : list Dados) :
  StronglySorted Z.lt (map id l) -> StronglySorted Z.lt (map id (filter p l)).
Proof.
  induction l as [|a l IH]; simpl; intros H; auto.
  apply StronglySorted_inv in H. destruct H as [H1 H2].
  destruct (p a); simpl; auto.
  constructor; auto.
  rewrite Forall_forall in *. intros x Hx.
  apply H2. rewrite in_map_iff in *.
  destruct Hx as (y & Hy & Hin). apply filter_In in Hin.
  exists y. tauto.
Qed.

(** Two lists of books, each strictly increasing in the identifier, with
    the same members are the same list. *)
Lemma ordenadas_iguais (l1 l2 : list Dados) :
  StronglySorted Z.lt (map id l1) -> StronglySorted Z.lt (map id l2) ->
  (forall x, In x l1 <-> In x l2) -> l1 = l2.
Proof.
  revert l2. induction l1 as [|a l1 IH]; intros [|b l2] S1 S2 H.
  - reflexivity.
  - exfalso. apply (proj2 (H b)). now left.
  - exfalso. apply (proj1 (H a)). now left.
  - simpl in S1, S2.
    apply StronglySorted_inv in S1. destruct S1 as [S1 F1].
    apply StronglySorted_inv in S2. destruct S2 as [S2 F2].
    rewrite Forall_forall in F1, F2.
    assert (Hab : a = b).
    { destruct (proj1 (H a) (or_introl eq_refl)) as [E|Ea]; [now symmetry|].
      destruct (proj2 (H b) (or_introl eq_refl)) as [E|Eb]; [assumption|].
      specialize (F1 _ (in_map id _ _ Eb)).
      specialize (F2 _ (in_map id _ _ Ea)). lia. }
    subst b. f_equal. apply IH; auto.
    intros x. split; intros Hx.
    + destruct (proj1 (H x) (or_intror Hx)) as [E|Hx']; auto.
      subst x. specialize (F1 _ (in_map id _ _ Hx)). lia.
    + destruct (proj2 (H x) (or_intror Hx)) as [E|Hx']; auto.
      subst x. specialize (F2 _ (in_map id _ _ Hx)). lia.
Qed.

Lemma filter_todos (p : Dados -> bool) (l : list Dados) :
  Forall (fun x => p x = true) l -> filter p l = l.
Proof.
  induction 1 as [|a l Ha _ IH]; simpl; auto.
  rewrite Ha, IH. reflexivity.
Qed.

(** ** The invariant as a property of the traversal *)

Lemma todos_Forall (P : Dados -> Prop) (no : Livro) :
  todos P no <-> Forall P (listarLivrosRecursivo no).
Proof.
  induction no as [|d e IHe r IHr]; simpl.
  - split; auto.
  - rewrite Forall_app, Forall_cons_iff, IHe, IHr. tauto.
Qed.

Lemma todos_impl (P Q : Dados -> Prop) (no : Livro) :
  (forall d, P d -> Q d) -> todos P no -> todos Q no.
Proof.
  intros HPQ. induction no as [|d e IHe r IHr]; simpl; auto.
  intros (H1 & H2 & H3). auto.
Qed.

Lemma todos_In (P : Dados -> Prop) (no : Livro) (d : Dados) :
  todos P no -> In d (listarLivrosRecursivo no) -> P d.
Proof.
  rewrite todos_Forall, Forall_forall. auto.
Qed.

Lemma abb_ordenada (no : Livro) :
  abb no <-> StronglySorted Z.lt (ids no).
Proof.
  unfold ids.
  induction no as [|d e IHe r IHr]; simpl.
  - split; auto. constructor.
  - rewrite map_app. simpl. rewrite ordenada_app, IHe, IHr.
    rewrite !todos_Forall, !Forall_map. tauto.
Qed.

Lemma abb_NoDup (no : Livro) : abb no -> NoDup (ids no).
Proof.
  intros H. apply ordenada_NoDup, abb_ordenada, H.
Qed.

#[local] Hint Resolve abb_NoDup : biblioteca.

Lemma contarLivros_length (no : Livro) :
  contarLivros no = Z.of_nat (List.length (listarLivrosRecursivo no)).
Proof.
  induction no as [|d e IHe r IHr]; [reflexivity|].
  cbn [contarLivros listarLivrosRecursivo].
  rewrite IHe, IHr, List.length_app. cbn [List.length]. lia.
Qed.

Lemma In_ids (no : Livro) (i : Z) :
  In i (ids no) <-> exists d, In d (listarLivrosRecursivo no) /\ id d = i.
Proof.
  unfold ids. rewrite in_map_iff. split; intros (d & H1 & H2); exists d; auto.
Qed.

Lemma ids_No (d : Dados) (e r : Livro) (i : Z) :
  In i (ids (No d e r)) <-> In i (ids e) \/ i = id d \/ In i (ids r).
Proof.
  unfold ids. simpl. rewrite map_app, in_app_iff. simpl.
  intuition auto.
Qed.

Lemma todos_ids (P : Z -> Prop) (no : Livro) (i : Z) :
  todos (fun x => P (id x)) no -> In i (ids no) -> P i.
Proof.
  intros H Hin. apply In_ids in Hin. destruct Hin as (d & Hd & <-).
  apply (todos_In _ _ _ H Hd).
Qed.

(** ** Searching *)

Lemma buscar_ausente (no : Livro) (i : Z) :
  ~ In i (ids no) -> buscarLivroRecursivo no i = NULL.
Proof.
  induction no as [|d e IHe r IHr]; simpl; auto.
  intros H. rewrite ids_No in H.
  comparar.
  - apply IHe. tauto.
  - apply IHr. tauto.
Qed.

Lemma buscar_No (no : Livro) (i : Z) (d : Dados) (e r : Livro) :
  buscarLivroRecursivo no i = No d e r ->
  id d = i /\ In d (listarLivrosRecursivo no).
Proof.
  induction no as [|d0 e0 IHe r0 IHr]; simpl; [discriminate|].
  comparar; intros H.
  - destruct (IHe H). split; auto. apply in_or_app. now left.
  - injection H as -> -> ->. split; auto. apply in_elt.
  - destruct (IHr H). split; auto. apply in_or_app. right. now right.
Qed.

Lemma registro_Some (no : Livro) (i : Z) (d : Dados) :
  registro no i = Some d -> id d = i /\ In d (listarLivrosRecursivo no).
Proof.
  unfold registro. destruct (buscarLivroRecursivo no i) eqn:E; simpl; [discriminate|].
  intros [= ->]. eapply buscar_No; eauto.
Qed.

(** In a search tree the search finds every book of the tree. *)
Lemma registro_presente (no : Livro) (d : Dados) :
  abb no -> In d (listarLivrosRecursivo no) -> registro no (id d) = Some d.
Proof.
  unfold registro.
  induction no as [|d0 e IHe r IHr]; simpl; [tauto|].
  intros (He & Hr & Ae & Ar) Hin.
  apply in_app_or in Hin. destruct Hin as [Hin|[->|Hin]].
  - pose proof (todos_In _ _ _ He Hin) as Hx. simpl in Hx. comparar. auto.
  - comparar. reflexivity.
  - pose proof (todos_In _ _ _ Hr Hin) as Hx. simpl in Hx. comparar. auto.
Qed.

Lemma registro_ausente (no : Livro) (i : Z) :
  ~ In i (ids no) -> registro no i = None.
Proof.
  intros H. unfold registro. now rewrite buscar_ausente.
Qed.

Lemma registro_In_ids (no : Livro) (i : Z) :
  abb no -> In i (ids no) -> exists d, registro no i = Some d /\ id d = i.
Proof.
  intros A Hin. apply In_ids in Hin. destruct Hin as (d & Hd & <-).
  exists d. split; auto. now apply registro_presente.
Qed.

(** ** Inserting *)

Lemma inserir_presente (no : Livro) (i : Z) (t a : string) :
  buscarLivroRecursivo no i <> NULL -> inserirLivroRecursivo no i t a = no.
Proof.
  induction no as [|d e IHe r IHr]; simpl; [congruence|].
  comparar; intros H; auto.
  - now rewrite IHe.
  - now rewrite IHr.
Qed.

Lemma registro_inserir_outro (no : Livro) (i j : Z) (t a : string) :
  j <> i -> registro (inserirLivroRecursivo no i t a) j = registro no j.
Proof.
  unfold registro. intros Hji.
  induction no as [|d e IHe r IHr]; simpl.
  - comparar; reflexivity.
  - comparar; simpl; comparar; auto.
Qed.

Lemma registro_inserir_mesmo (no : Livro) (i : Z) (t a : string) :
  registro (inserirLivroRecursivo no i t a) i =
  match registro no i with
  | Some d => Some d
  | None => Some (mkDados i t a 1)
  end.
Proof.
  unfold registro.
  induction no as [|d e IHe r IHr]; simpl.
  - comparar; reflexivity.
  - comparar; simpl; comparar; auto.
Qed.

Lemma todos_inserir (P : Dados -> Prop) (no : Livro) (i : Z) (t a : string) :
  todos P no -> P (mkDados i t a 1) -> todos P (inserirLivroRecursivo no i t a).
Proof.
  intros H Hn. induction no as [|d e IHe r IHr]; simpl in *; auto.
  destruct H as (H1 & H2 & H3).
  comparar; simpl; auto.
Qed.

Lemma abb_inserir (no : Livro) (i : Z) (t a : string) :
  abb no -> abb (inserirLivroRecursivo no i t a).
Proof.
  induction no as [|d e IHe r IHr]; simpl; auto.
  intros (He & Hr & Ae & Ar).
  comparar; simpl; repeat split; auto;
    apply todos_inserir; simpl; auto; lia.
Qed.

#[local] Hint Resolve abb_inserir : biblioteca.

Lemma listar_inserir (no : Livro) (i : Z) (t a : string) (x : Dados) :
  ~ In i (ids no) ->
  In x (listarLivrosRecursivo (inserirLivroRecursivo no i t a)) <->
  x = mkDados i t a 1 \/ In x (listarLivrosRecursivo no).
Proof.
  induction no as [|d e IHe r IHr]; simpl; intros H.
  - intuition auto.
  - rewrite ids_No in H.
    comparar; simpl; rewrite !in_app_iff; simpl.
    + rewrite IHe by tauto. tauto.
    + rewrite IHr by tauto. tauto.
Qed.

Lemma ids_inserir (no : Livro) (i j : Z) (t a : string) :
  In j (ids (inserirLivroRecursivo no i t a)) <-> j = i \/ In j (ids no).
Proof.
  induction no as [|d e IHe r IHr]; simpl.
  - unfold ids. simpl. intuition auto.
  - comparar; rewrite ?ids_No.
    + rewrite IHe. tauto.
    + rewrite IHr. tauto.
    + assert (i = id d) by lia. subst i. tauto.
Qed.

(** ** Removing *)

Lemma encontrarMenor_No (d : Dados) (e r : Livro) :
  encontrarMenor (No d e r) <> NULL.
Proof.
  revert d r. induction e as [|d' e' IHe r' _]; intros d r; simpl.
  - discriminate.
  - apply (IHe d' r').
Qed.

(** The leftmost node opens the traversal. *)
Lemma encontrarMenor_cabeca (no : Livro) (temp : Dados) (e r : Livro) :
  encontrarMenor no = No temp e r ->
  exists l, listarLivrosRecursivo no = temp :: l.
Proof.
  induction no as [|d e0 IHe r0 _]; simpl; [discriminate|].
  destruct e0 as [|d1 e1 r1].
  - intros [= -> <- <-]. simpl. eauto.
  - intros H. destruct (IHe H) as (l & Hl). rewrite Hl. simpl. eauto.
Qed.

Lemma outro_menor (i : Z) (l : list Dados) :
  Forall (fun x => id x < i) l -> filter (outro i) l = l.
Proof.
  intros H. apply filter_todos. eapply Forall_impl; [|exact H].
  unfold outro. simpl. intros d Hd. comparar; reflexivity.
Qed.

Lemma outro_maior (i : Z) (l : list Dados) :
  Forall (fun x => i < id x) l -> filter (outro i) l = l.
Proof.
  intros H. apply filter_todos. eapply Forall_impl; [|exact H].
  unfold outro. simpl. intros d Hd. comparar; reflexivity.
Qed.

(** Removing [i] from a search tree removes the book [i] from the
    traversal and keeps every other book, with its fields, in place. *)
Lemma listar_remover (no : Livro) (i : Z) :
  abb no ->
  listarLivrosRecursivo (removerLivroRecursivo no i) =
  filter (outro i) (listarLivrosRecursivo no).
Proof.
  revert i. induction no as [|d e IHe r IHr]; intros i; [reflexivity|].
  intros A. pose proof A as (He & Hr & Ae & Ar).
  rewrite todos_Forall in He, Hr.
  cbn [removerLivroRecursivo listarLivrosRecursivo].
  rewrite filter_app. cbn [filter]. unfold outro at 2.
  comparar; cbn [negb listarLivrosRecursivo].
  - rewrite IHe by assumption. f_equal. f_equal.
    symmetry. apply outro_maior.
    eapply Forall_impl; [|exact Hr]. simpl; intros; lia.
  - rewrite IHr by assumption.
    rewrite (outro_menor i (listarLivrosRecursivo e)); [reflexivity|].
    eapply Forall_impl; [|exact He]. simpl; intros; lia.
  - assert (id d = i) by lia. subst i.
    rewrite (outro_menor (id d)), (outro_maior (id d)) by assumption.
    destruct e as [|de ee re]; [reflexivity|].
    destruct r as [|dr er rr]; [cbn [listarLivrosRecursivo]; now rewrite List.app_nil_r|].
    cbv beta iota.
    remember (No dr er rr) as R eqn:ER.
    remember (No de ee re) as L eqn:EL.
    destruct (encontrarMenor R) as [|temp et rt] eqn:E.
    + subst R. now apply encontrarMenor_No in E.
    + cbn [listarLivrosRecursivo]. rewrite IHr by assumption.
      destruct (encontrarMenor_cabeca _ _ _ _ E) as (l & Hl).
      rewrite Hl. f_equal. f_equal. cbn [filter]. unfold outro at 1.
      rewrite Z.eqb_refl. cbn [negb].
      apply outro_maior.
      apply abb_ordenada in Ar. unfold ids in Ar. rewrite Hl in Ar.
      simpl in Ar.
      apply StronglySorted_inv in Ar. destruct Ar as [_ Ar].
      now rewrite Forall_map in Ar.
Qed.

Lemma abb_remover (no : Livro) (i : Z) :
  abb no -> abb (removerLivroRecursivo no i).
Proof.
  intros A. apply abb_ordenada. unfold ids.
  rewrite listar_remover by assumption.
  apply ordenada_filter. now apply abb_ordenada.
Qed.

#[local] Hint Resolve abb_remover : biblioteca.

Lemma ids_remover (no : Livro) (i j : Z) :
  abb no ->
  In j (ids (removerLivroRecursivo no i)) <-> In j (ids no) /\ j <> i.
Proof.
  intros A. rewrite !In_ids. rewrite listar_remover by assumption.
  split.
  - intros (d & Hd & <-). apply filter_In in Hd. destruct Hd as [Hd Ho].
    split; eauto. unfold outro in Ho.
    destruct (Z.eqb_spec (id d) i); [discriminate|assumption].
  - intros ((d & Hd & <-) & Hne). exists d. split; auto.
    apply filter_In. split; auto. unfold outro.
    destruct (Z.eqb_spec (id d) i); [contradiction|reflexivity].
Qed.

Lemma length_remover (l : list Dados) (i : Z) :
  StronglySorted Z.lt (map id l) -> In i (map id l) ->
  S (List.length (filter (outro i) l)) = List.length l.
Proof.
  induction l as [|a l IH]; simpl; [tauto|].
  intros H Hin. apply StronglySorted_inv in H. destruct H as [H1 H2].
  unfold outro at 1.
  destruct (Z.eqb_spec (id a) i) as [E|N]; simpl.
  - f_equal. f_equal. apply outro_maior.
    rewrite Forall_map in H2. now subst i.
  - f_equal. apply IH; auto. tauto.
Qed.

Lemma remover_ausente (no : Livro) (i : Z) :
  ~ In i (ids no) -> removerLivroRecursivo no i = no.
Proof.
  induction no as [|d e IHe r IHr]; [reflexivity|].
  intros H. rewrite ids_No in H. cbn [removerLivroRecursivo].
  comparar.
  - rewrite IHe by tauto. reflexivity.
  - rewrite IHr by tauto. reflexivity.
Qed.

(** ** Storing the availability *)

Lemma forma_atribuir (no : Livro) (i v : Z) :
  forma (atribuirDisponivel no i v) = forma no.
Proof.
  induction no as [|d e IHe r IHr]; simpl; auto.
  comparar; simpl; congruence.
Qed.

Lemma ids_forma (no : Livro) :
  ids no = (fix lista (f : Forma) : list Z :=
              match f with
              | Vazia => []
              | Ramo i e r => lista e ++ i :: lista r
              end) (forma no).
Proof.
  unfold ids. induction no as [|d e IHe r IHr]; simpl; auto.
  rewrite map_app. simpl. now rewrite IHe, IHr.
Qed.

Lemma ids_atribuir (no : Livro) (i v : Z) :
  ids (atribuirDisponivel no i v) = ids no.
Proof.
  now rewrite !ids_forma, forma_atribuir.
Qed.

Lemma abb_atribuir (no : Livro) (i v : Z) :
  abb no -> abb (atribuirDisponivel no i v).
Proof.
  rewrite !abb_ordenada, ids_atribuir. auto.
Qed.

#[local] Hint Resolve abb_atribuir : biblioteca.

Lemma contar_forma (no1 no2 : Livro) :
  forma no1 = forma no2 -> contarLivros no1 = contarLivros no2.
Proof.
  revert no2. induction no1 as [|d e IHe r IHr]; intros [|d2 e2 r2]; simpl;
    try discriminate; auto.
  intros [= _ He Hr]. now rewrite (IHe _ He), (IHr _ Hr).
Qed.

(** The node the store changes is the node the search returns. *)
Lemma buscar_atribuir (no : Livro) (i v : Z) (d : Dados) (e r : Livro) :
  buscarLivroRecursivo no i = No d e r ->
  buscarLivroRecursivo (atribuirDisponivel no i v) i = No (comDisponivel v d) e r.
Proof.
  induction no as [|d0 e0 IHe r0 IHr]; simpl; [discriminate|].
  comparar; simpl; comparar; auto.
  intros [= -> -> ->]. reflexivity.
Qed.

Lemma registro_atribuir_mesmo (no : Livro) (i v : Z) :
  registro (atribuirDisponivel no i v) i =
  option_map (comDisponivel v) (registro no i).
Proof.
  unfold registro.
  induction no as [|d e IHe r IHr]; simpl; auto.
  comparar; simpl; comparar; auto.
Qed.

Lemma registro_atribuir_outro (no : Livro) (i j v : Z) :
  j <> i -> registro (atribuirDisponivel no i v) j = registro no j.
Proof.
  unfold registro. intros Hji.
  induction no as [|d e IHe r IHr]; simpl; auto.
  comparar; simpl; comparar; auto.
Qed.

Lemma atribuir_ausente (no : Livro) (i v : Z) :
  buscarLivroRecursivo no i = NULL -> atribuirDisponivel no i v = no.
Proof.
  induction no as [|d e IHe r IHr]; simpl; auto.
  comparar; intros H; try discriminate.
  - now rewrite IHe.
  - now rewrite IHr.
Qed.

Lemma atribuir_mesmo_valor (no : Livro) (i : Z) (d : Dados) :
  registro no i = Some d -> atribuirDisponivel no i (disponivel d) = no.
Proof.
  unfold registro.
  induction no as [|d0 e IHe r IHr]; simpl; auto.
  comparar; simpl; intros H.
  - now rewrite IHe.
  - injection H as <-. now destruct d0.
  - now rewrite IHr.
Qed.

Lemma registro_buscar (no : Livro) (i : Z) (d : Dados) :
  registro no i = Some d <-> exists e r, buscarLivroRecursivo no i = No d e r.
Proof.
  unfold registro. destruct (buscarLivroRecursivo no i) as [|d0 e r]; simpl.
  - split; [discriminate|]. intros (e & r & H). discriminate.
  - split.
    + intros [= ->]. eauto.
    + intros (e' & r' & [= -> _ _]). reflexivity.
Qed.

(** ** Claims on the tree engine *)

(** C4.  In a catalogue that holds a book with identifier [i], a call
    [inserirLivro bib i t a] returns the catalogue as it was: the same
    tree, hence no new node and the old title, author and availability
    behind [i]. *)
Theorem inserir_duplicado_sem_efeito (bib : Biblioteca) (i : Z) (t a : string) :
  abb (raiz bib) -> In i (ids (raiz bib)) ->
  inserirLivro bib i t a = bib /\
  camposDe (buscarLivro (inserirLivro bib i t a) i) = camposDe (buscarLivro bib i) /\
  contarLivros (raiz (inserirLivro bib i t a)) = contarLivros (raiz bib).
Proof.
  intros A Hin.
  assert (E : inserirLivro bib i t a = bib).
  { destruct bib as [no]. unfold inserirLivro. simpl in *. f_equal.
    apply inserir_presente.
    destruct (registro_In_ids _ _ A Hin) as (d & Hd & _).
    apply registro_buscar in Hd. destruct Hd as (e & r & Hd). congruence. }
  rewrite E. auto.
Qed.

(** C9.  Removing an identifier that no book of the catalogue carries
    returns the catalogue as it was: the same tree and the same count. *)
Theorem remover_ausente_sem_efeito (bib : Biblioteca) (i : Z) :
  ~ In i (ids (raiz bib)) ->
  removerLivro bib i = bib /\
  contarLivros (raiz (removerLivro bib i)) = contarLivros (raiz bib).
Proof.
  intros H. unfold removerLivro. rewrite remover_ausente by assumption.
  destruct bib; auto.
Qed.

(** C5.  After removing the identifier of a book of the catalogue the
    search for it returns the null pointer, the count is one less, the
    tree is a search tree, and the traversal is the old one without that
    book. *)
Theorem remover_presente (bib : Biblioteca) (i : Z) :
  abb (raiz bib) -> In i (ids (raiz bib)) ->
  buscarLivro (removerLivro bib i) i = NULL /\
  contarLivros (raiz (removerLivro bib i)) = contarLivros (raiz bib) - 1 /\
  abb (raiz (removerLivro bib i)) /\
  listarLivrosRecursivo (raiz (removerLivro bib i)) =
    filter (outro i) (listarLivrosRecursivo (raiz bib)).
Proof.
  intros A Hin. unfold buscarLivro, removerLivro. simpl.
  repeat split.
  - apply buscar_ausente. rewrite ids_remover by assumption. tauto.
  - rewrite !contarLivros_length, listar_remover by assumption.
    apply abb_ordenada in A.
    pose proof (length_remover _ _ A Hin). lia.
  - now apply abb_remover.
  - now apply listar_remover.
Qed.

Lemma inserirTodos_mantem (l : list (Z * string * string)) (bib : Biblioteca)
    (i : Z) (d : Dados) :
  registro (raiz bib) i = Some d ->
  registro (raiz (inserirTodos bib l)) i = Some d.
Proof.
  revert bib. induction l as [|x l IH]; intros bib H; simpl; auto.
  apply IH. simpl.
  destruct (Z.eq_dec i (chave x)) as [->|N].
  - now rewrite registro_inserir_mesmo, H.
  - now rewrite registro_inserir_outro.
Qed.

Lemma inserirTodos_abb (l : list (Z * string * string)) (bib : Biblioteca) :
  abb (raiz bib) -> abb (raiz (inserirTodos bib l)).
Proof.
  revert bib. induction l as [|x l IH]; intros bib H; simpl; auto.
  apply IH. simpl. now apply abb_inserir.
Qed.

Lemma inserirTodos_registro (l : list (Z * string * string)) (bib : Biblioteca) :
  NoDup (map chave l) ->
  (forall x, In x l -> ~ In (chave x) (ids (raiz bib))) ->
  forall x, In x l ->
  registro (raiz (inserirTodos bib l)) (chave x) = Some (novoRegistro x).
Proof.
  revert bib. induction l as [|y l IH]; intros bib ND Hfora x Hx; [destruct Hx|].
  simpl in ND. apply NoDup_cons_iff in ND. destruct ND as [Hy ND].
  simpl. destruct Hx as [->|Hx].
  - apply inserirTodos_mantem. simpl.
    rewrite registro_inserir_mesmo, registro_ausente; auto.
    apply Hfora. now left.
  - apply IH; auto.
    intros z Hz. simpl. rewrite ids_inserir. intros [E|Hin].
    + apply Hy. rewrite <- E. now apply in_map.
    + apply (Hfora z); auto. now right.
Qed.

Lemma inserirTodos_listar (l : list (Z * string * string)) (bib : Biblioteca) :
  NoDup (map chave l) ->
  (forall x, In x l -> ~ In (chave x) (ids (raiz bib))) ->
  forall d, In d (listarLivrosRecursivo (raiz (inserirTodos bib l))) <->
            In d (map novoRegistro l) \/ In d (listarLivrosRecursivo (raiz bib)).
Proof.
  revert bib. induction l as [|y l IH]; intros bib ND Hfora d; [simpl; tauto|].
  simpl in ND. apply NoDup_cons_iff in ND. destruct ND as [Hy ND].
  simpl. rewrite IH; auto.
  - simpl. rewrite listar_inserir by (apply Hfora; now left).
    unfold novoRegistro. intuition auto.
  - intros z Hz. simpl. rewrite ids_inserir. intros [E|Hin].
    + apply Hy. rewrite <- E. now apply in_map.
    + apply (Hfora z); auto. now right.
Qed.

(** C3.  After inserting books with pairwise distinct identifiers into an
    empty catalogue, the search for each identifier returns a node with
    the title and author that were inserted and availability 1; the
    traversal goes through strictly increasing identifiers and through
    exactly the inserted books. *)
Theorem inserir_buscar_listar (l : list (Z * string * string)) :
  NoDup (map chave l) ->
  (forall x, In x l ->
     camposDe (buscarLivro (inserirTodos criarBiblioteca l) (chave x))
     = Some (novoRegistro x)) /\
  StronglySorted Z.lt
    (map id (listarLivrosRecursivo (raiz (inserirTodos criarBiblioteca l)))) /\
  (forall d, In d (listarLivrosRecursivo (raiz (inserirTodos criarBiblioteca l)))
             <-> In d (map novoRegistro l)).
Proof.
  intros ND. repeat split.
  - intros x Hx. apply (inserirTodos_registro l criarBiblioteca ND); auto.
  - apply abb_ordenada, inserirTodos_abb. exact I.
  - rewrite inserirTodos_listar; auto. simpl. tauto.
  - intros H. rewrite inserirTodos_listar; auto.
Qed.

(** C8.  [emprestarLivro] has three outcomes.  When the search returns the
    null pointer it prints "not found" and leaves the catalogue as it was.
    When the book is there with availability 0 it prints "not available"
    and leaves the catalogue as it was.  When the book is there with a
    non-zero availability it prints "success" and stores 0 in that book
    alone; then a second loan prints "not available", a return prints
    "success" and stores 1, and a second return prints "already
    available". *)
Theorem emprestar_devolver_resultados (bib : Biblioteca) (i : Z) :
  (buscarLivro bib i = NULL ->
     emprestarLivro bib i = (bib, NaoEncontrado)) /\
  (forall d, camposDe (buscarLivro bib i) = Some d -> disponivel d = 0 ->
     emprestarLivro bib i = (bib, NaoDisponivel)) /\
  (forall d, camposDe (buscarLivro bib i) = Some d -> disponivel d <> 0 ->
     exists bib1 bib2,
       emprestarLivro bib i = (bib1, EmprestadoComSucesso) /\
       camposDe (buscarLivro bib1 i) = Some (comDisponivel 0 d) /\
       (forall j, j <> i ->
          camposDe (buscarLivro bib1 j) = camposDe (buscarLivro bib j)) /\
       forma (raiz bib1) = forma (raiz bib) /\
       emprestarLivro bib1 i = (bib1, NaoDisponivel) /\
       devolverLivro bib1 i = (bib2, DevolvidoComSucesso) /\
       camposDe (buscarLivro bib2 i) = Some (comDisponivel 1 d) /\
       devolverLivro bib2 i = (bib2, JaDisponivel)).
Proof.
  destruct bib as [no]. unfold emprestarLivro, devolverLivro, buscarLivro.
  cbn [raiz]. fold (registro no i).
  repeat split.
  - intros ->. reflexivity.
  - intros d Hd Hz. unfold registro in Hd.
    destruct (buscarLivroRecursivo no i) as [|d0 e r]; [discriminate|].
    injection Hd as ->. rewrite Hz. reflexivity.
  - intros d Hd Hz.
    pose proof (registro_atribuir_mesmo no i 0) as R1. rewrite Hd in R1.
    simpl in R1.
    pose proof (registro_atribuir_mesmo (atribuirDisponivel no i 0) i 1) as R2.
    rewrite R1 in R2. simpl in R2. unfold comDisponivel at 2 in R2. simpl in R2.
    fold (comDisponivel 1 d) in R2.
    exists (mkBiblioteca (atribuirDisponivel no i 0)).
    exists (mkBiblioteca (atribuirDisponivel (atribuirDisponivel no i 0) i 1)).
    cbn [raiz].
    fold (registro (atribuirDisponivel no i 0) i).
    fold (registro (atribuirDisponivel (atribuirDisponivel no i 0) i 1) i).
    unfold registro in Hd, R1, R2 |- *.
    destruct (buscarLivroRecursivo no i) as [|d0 e r]; [discriminate|].
    injection Hd as ->.
    destruct (Z.eqb_spec (disponivel d) 0) as [|_]; [contradiction|].
    destruct (buscarLivroRecursivo (atribuirDisponivel no i 0) i)
      as [|d1 e1 r1]; [discriminate|].
    injection R1 as ->.
    destruct (buscarLivroRecursivo
                (atribuirDisponivel (atribuirDisponivel no i 0) i 1) i)
      as [|d2 e2 r2]; [discriminate|].
    injection R2 as ->.
    simpl. repeat split; auto.
    + intros j Hj. apply (registro_atribuir_outro no i j 0 Hj).
    + apply forma_atribuir.
Qed.

(** ** Printing and scanning an [int] *)

Section Decimais.

Import Decimal.

Lemma lerDigitos_uint (u : uint) (acc : Z) (resto : string) :
  semDigito resto ->
  lerDigitos (DecimalString.NilEmpty.string_of_uint u ++ resto) acc =
  (acumular u acc, resto).
Proof.
  intros Hr. revert acc.
  induction u; intros acc; simpl; try apply IHu.
  destruct resto as [|c r]; simpl in *; [reflexivity|].
  now rewrite Hr.
Qed.

Lemma acumular_valor (u : uint) (acc : Z) :
  acumular u acc =
  Z.of_N (DecimalPos.Unsigned.of_lu (rev u)) +
  acc * 10 ^ Z.of_N (DecimalPos.Unsigned.usize u).
Proof.
  revert acc.
  induction u; intros acc;
    [simpl; lia | ..];
    cbn [acumular DecimalPos.Unsigned.usize]; rewrite IHu;
    match goal with
    | |- context [rev (?D u)] => change (rev (D u)) with (revapp u (D Nil))
    end;
    rewrite (DecimalPos.Unsigned.of_lu_revapp u);
    rewrite N2Z.inj_succ, Z.pow_succ_r by lia;
    rewrite N2Z.inj_add, N2Z.inj_mul, N2Z.inj_pow;
    match goal with
    | |- context [DecimalPos.Unsigned.of_lu (?D Nil)] =>
        change (Z.of_N (DecimalPos.Unsigned.of_lu (D Nil)))
          with (acumular (D Nil) 0)
    end;
    cbn [acumular]; change (Z.of_N 10) with 10; ring.
Qed.

Lemma acumular_of_uint (u : uint) : acumular u 0 = Z.of_uint u.
Proof.
  rewrite acumular_valor. unfold Z.of_uint.
  rewrite DecimalPos.Unsigned.of_uint_alt. lia.
Qed.

Lemma semDigito_contem (c : ascii) (u : uint) :
  digito c = None ->
  contem c (DecimalString.NilEmpty.string_of_uint u) = false.
Proof.
  intros Hc.
  induction u; cbn [contem DecimalString.NilEmpty.string_of_uint]; auto;
    rewrite IHu, orb_false_r;
    match goal with
    | |- Ascii.eqb ?k c = false =>
        destruct (Ascii.eqb_spec k c) as [E|E];
        [subst c; vm_compute in Hc; discriminate Hc | reflexivity]
    end.
Qed.

Lemma lerNatural_uint (u : uint) (resto : string) :
  u <> Nil -> semDigito resto ->
  lerNatural (DecimalString.NilEmpty.string_of_uint u ++ resto) =
  Some (Z.of_uint u, resto).
Proof.
  intros Hu Hr. rewrite <- acumular_of_uint.
  destruct u; [contradiction|..]; simpl;
    now rewrite lerDigitos_uint.
Qed.

Lemma to_uint_nao_vazio (p : positive) : Pos.to_uint p <> Nil.
Proof.
  intros E. pose proof (DecimalPos.Unsigned.of_to p) as H.
  rewrite E in H. discriminate H.
Qed.

Lemma of_to_uint (p : positive) : Z.of_uint (Pos.to_uint p) = Z.pos p.
Proof.
  unfold Z.of_uint. now rewrite DecimalPos.Unsigned.of_to.
Qed.

(** What [fprintf] writes for an [int], [sscanf] reads back, up to the
    first character that is not a digit. *)
Lemma lerInt_imprimirInt (z : Z) (resto : string) :
  semDigito resto ->
  lerInt (imprimirInt z ++ resto) = Some (z, resto).
Proof.
  intros Hr. unfold imprimirInt.
  destruct z as [|p|p]; cbn [Z.to_int DecimalString.NilEmpty.string_of_int].
  - refine (lerNatural_uint zero resto _ Hr). discriminate.
  - pose proof (lerNatural_uint _ resto (to_uint_nao_vazio p) Hr) as H.
    rewrite of_to_uint in H. unfold lerInt.
    pose proof (to_uint_nao_vazio p) as Hn. revert H Hn.
    destruct (Pos.to_uint p) as [|u|u|u|u|u|u|u|u|u|u]; intros H Hn;
      [contradiction|..]; exact H.
  - pose proof (lerNatural_uint _ resto (to_uint_nao_vazio p) Hr) as H.
    rewrite of_to_uint in H. unfold lerInt.
    cbn [append pularEspacos].
    change (isspace "-") with false. cbv iota.
    change (Ascii.eqb "-" "-") with true. cbv iota.
    now rewrite H.
Qed.

Lemma contem_imprimirInt (c : ascii) (z : Z) :
  digito c = None -> c <> "-"%char -> contem c (imprimirInt z) = false.
Proof.
  intros Hc Hm. unfold imprimirInt.
  destruct z as [|p|p]; cbn [Z.to_int DecimalString.NilEmpty.string_of_int].
  - apply (semDigito_contem c zero Hc).
  - now apply semDigito_contem.
  - cbn [contem]. rewrite semDigito_contem by assumption.
    destruct (Ascii.eqb_spec "-" c); [congruence|reflexivity].
Qed.

End Decimais.

(** ** Text *)

Lemma append_assoc (a b c : string) :
  ((a ++ b) ++ c = a ++ (b ++ c))%string.
Proof.
  induction a as [|x a IH]; simpl; [reflexivity|now rewrite IH].
Qed.

Lemma length_append (a b : string) :
  String.length (a ++ b) = (String.length a + String.length b)%nat.
Proof.
  induction a as [|x a IH]; simpl; [reflexivity|now rewrite IH].
Qed.

Lemma contem_append (c : ascii) (a b : string) :
  contem c (a ++ b) = contem c a || contem c b.
Proof.
  induction a as [|x a IH]; simpl; [reflexivity|].
  now rewrite IH, orb_assoc.
Qed.

Lemma ateBarra_campo (t resto : string) :
  contem barra t = false ->
  ateBarra (t ++ String barra resto) = (t, String barra resto).
Proof.
  induction t as [|c t IH]; cbn [contem append ateBarra]; intros H.
  - now rewrite Ascii.eqb_refl.
  - apply orb_false_elim in H. destruct H as [H1 H2].
    now rewrite H1, IH.
Qed.

Lemma lerCampo_campo (t resto : string) :
  campoValido t ->
  lerCampo (t ++ String barra resto) = Some (t, String barra resto).
Proof.
  intros (Hn & Hb & _). unfold lerCampo. rewrite ateBarra_campo by assumption.
  destruct t; [contradiction|reflexivity].
Qed.

Lemma lerBarra_barra (s : string) : lerBarra (String barra s) = Some s.
Proof.
  unfold lerBarra. now rewrite Ascii.eqb_refl.
Qed.

(** [sscanf] splits the line written for a book into the four fields of
    the book whenever the title and the author are carried unchanged. *)
Lemma sscanf_formatarLinha (d v : Dados) :
  campoValido (titulo d) -> campoValido (autor d) ->
  sscanf (formatarLinha d) v = (4%nat, d).
Proof.
  intros Ht Ha. unfold sscanf, formatarLinha.
  rewrite lerInt_imprimirInt by reflexivity.
  rewrite lerBarra_barra, lerCampo_campo by assumption.
  rewrite lerBarra_barra, lerCampo_campo by assumption.
  rewrite lerBarra_barra, lerInt_imprimirInt by reflexivity.
  now destruct d.
Qed.

(** Whatever the title and the author are, [sscanf] reads the identifier
    that was written. *)
Lemma sscanf_id (d v : Dados) :
  id (snd (sscanf (formatarLinha d) v)) = id d.
Proof.
  unfold sscanf, formatarLinha.
  rewrite lerInt_imprimirInt by reflexivity.
  repeat match goal with
  | |- context [match ?x with _ => _ end] => destruct x
  end; reflexivity.
Qed.

Lemma fgets_linha (s resto : string) (n : nat) :
  contem novaLinha s = false -> (String.length s < n)%nat ->
  fgets n ((s ++ String novaLinha EmptyString) ++ resto) =
  ((s ++ String novaLinha EmptyString)%string, resto).
Proof.
  revert n. induction s as [|c s IH]; intros [|n] Hc Hn;
    try (simpl in Hn; lia); cbn [append fgets].
  - now rewrite Ascii.eqb_refl.
  - cbn [contem] in Hc. apply orb_false_elim in Hc. destruct Hc as [H1 H2].
    rewrite H1, IH; auto. simpl in Hn. lia.
Qed.

Lemma formatarLinha_corpo (d : Dados) :
  formatarLinha d = (corpo d ++ String novaLinha EmptyString)%string.
Proof.
  unfold formatarLinha, corpo.
  repeat (rewrite append_assoc; cbn [append]). reflexivity.
Qed.

Lemma contem_corpo (d : Dados) :
  contem novaLinha (titulo d) = false -> contem novaLinha (autor d) = false ->
  contem novaLinha (corpo d) = false.
Proof.
  intros Ht Ha. unfold corpo.
  repeat (rewrite contem_append; cbn [contem]).
  rewrite Ht, Ha, !contem_imprimirInt; try reflexivity; discriminate.
Qed.

Lemma fgets_formatarLinha (d : Dados) (resto : string) :
  linhaInteira d ->
  fgets 255 (formatarLinha d ++ resto) = (formatarLinha d, resto).
Proof.
  intros (Ht & Ha & Hl). rewrite formatarLinha_corpo in *.
  apply fgets_linha.
  - now apply contem_corpo.
  - rewrite length_append in Hl. simpl in Hl. lia.
Qed.

Lemma linhaValida_inteira (d : Dados) : linhaValida d -> linhaInteira d.
Proof.
  intros ((_ & _ & Ht) & (_ & _ & Ha) & Hl). repeat split; assumption.
Qed.

(** ** The loading loop *)

Lemma buscar_inserir (no : Livro) (i : Z) (t a : string) :
  buscarLivroRecursivo (inserirLivroRecursivo no i t a) i <> NULL.
Proof.
  pose proof (registro_inserir_mesmo no i t a) as H. unfold registro in H.
  intros E. rewrite E in H.
  destruct (camposDe (buscarLivroRecursivo no i)); discriminate H.
Qed.

(** One turn of the loop inserts with the locals as [sscanf] left them and
    stores the availability behind the identifier. *)
Lemma carregarLinha_eq (linha : string) (v : Dados) (bib : Biblioteca) :
  carregarLinha linha (v, bib) =
  (snd (sscanf linha v),
   mkBiblioteca (carregarRegistro (raiz bib) (snd (sscanf linha v)))).
Proof.
  unfold carregarLinha, carregarRegistro, buscarLivro, inserirLivro. cbn [raiz].
  destruct (buscarLivroRecursivo _ _) eqn:E; [|reflexivity].
  now apply buscar_inserir in E.
Qed.

Lemma abb_carregarRegistro (no : Livro) (d : Dados) :
  abb no -> abb (carregarRegistro no d).
Proof.
  intros A. unfold carregarRegistro. auto with biblioteca.
Qed.

#[local] Hint Resolve abb_carregarRegistro : biblioteca.

Lemma ids_carregarRegistro (no : Livro) (d : Dados) (j : Z) :
  In j (ids (carregarRegistro no d)) <-> j = id d \/ In j (ids no).
Proof.
  unfold carregarRegistro. rewrite ids_atribuir. apply ids_inserir.
Qed.

Lemma listar_carregarRegistro (no : Livro) (d x : Dados) :
  ~ In (id d) (ids no) ->
  In x (listarLivrosRecursivo (carregarRegistro no d)) <->
  x = d \/ In x (listarLivrosRecursivo no).
Proof.
  unfold carregarRegistro.
  induction no as [|d0 e IHe r IHr]; intros H.
  - simpl. rewrite Z.eqb_refl. simpl. destruct d; simpl. intuition auto.
  - rewrite ids_No in H. cbn [inserirLivroRecursivo].
    comparar; cbn [atribuirDisponivel]; comparar;
      cbn [listarLivrosRecursivo]; rewrite !in_app_iff; simpl.
    + rewrite IHe by tauto. tauto.
    + rewrite IHr by tauto. tauto.
Qed.

Lemma carregarLinha_formatarLinha (d v : Dados) (bib : Biblioteca) :
  campoValido (titulo d) -> campoValido (autor d) ->
  carregarLinha (formatarLinha d) (v, bib) =
  (d, mkBiblioteca (carregarRegistro (raiz bib) d)).
Proof.
  intros Ht Ha. rewrite carregarLinha_eq, sscanf_formatarLinha by assumption.
  reflexivity.
Qed.

Lemma carregarLinha_abb (linha : string) (st : Dados * Biblioteca) :
  abb (raiz (snd st)) -> abb (raiz (snd (carregarLinha linha st))).
Proof.
  destruct st as [v bib]. rewrite carregarLinha_eq. cbn [snd raiz].
  apply abb_carregarRegistro.
Qed.

Lemma fgets_resto (n : nat) (arquivo : string) :
  (String.length (snd (fgets n arquivo)) <= String.length arquivo)%nat.
Proof.
  revert arquivo. induction n as [|n IH]; intros [|c s]; simpl; auto.
  destruct (Ascii.eqb c novaLinha); simpl; [lia|].
  specialize (IH s). destruct (fgets n s); simpl in *. lia.
Qed.

Lemma fgets_consome (n : nat) (c : ascii) (s : string) :
  (String.length (snd (fgets (S n) (String c s))) <= String.length s)%nat.
Proof.
  simpl. destruct (Ascii.eqb c novaLinha); simpl; [lia|].
  pose proof (fgets_resto n s). destruct (fgets n s); simpl in *. lia.
Qed.

(** The loop ends on every file, and it keeps the invariant. *)
Lemma carregarLinhas_total (fuel : nat) (arquivo : string)
    (st : Dados * Biblioteca) :
  (String.length arquivo <= fuel)%nat ->
  exists st', carregarLinhas fuel arquivo st = Some st' /\
              (abb (raiz (snd st)) -> abb (raiz (snd st'))).
Proof.
  revert arquivo st.
  induction fuel as [|f IH]; intros [|c s] st Hl;
    cbn [carregarLinhas]; eauto; [simpl in Hl; lia|].
  pose proof (fgets_consome 254 c s) as Hc.
  destruct (fgets 255 (String c s)) as [linha resto]. cbn [snd] in Hc.
  destruct (IH resto (carregarLinha linha st)) as (st' & E & A).
  { simpl in Hl. lia. }
  exists st'. split; auto.
  intros A0. apply A. now apply carregarLinha_abb.
Qed.

Lemma linhas_app (l1 l2 : list Dados) :
  linhas (l1 ++ l2) = (linhas l1 ++ linhas l2)%string.
Proof.
  induction l1 as [|d l1 IH]; simpl; [reflexivity|].
  now rewrite IH, append_assoc.
Qed.

Lemma formatarLinha_nao_vazia (d : Dados) (resto : string) :
  exists c s, (formatarLinha d ++ resto)%string = String c s /\
              (String.length (linhas [] ++ resto) <= String.length s)%nat.
Proof.
  rewrite formatarLinha_corpo.
  destruct (corpo d) as [|c s]; simpl.
  - eauto.
  - exists c. eexists. split; [reflexivity|].
    rewrite !length_append. simpl. lia.
Qed.

(** On the text written for the books of [l], each in one piece, the loop
    takes one turn per book, with the line of that book. *)
Lemma carregarLinhas_linhas (l : list Dados) (fuel : nat)
    (st : Dados * Biblioteca) :
  Forall linhaInteira l -> (String.length (linhas l) <= fuel)%nat ->
  carregarLinhas fuel (linhas l) st =
  Some (fold_left (fun s d => carregarLinha (formatarLinha d) s) l st).
Proof.
  revert fuel st. induction l as [|d l IH]; intros fuel st Hv Hl.
  - destruct fuel; reflexivity.
  - inversion Hv as [|? ? Hd Hv']; subst.
    cbn [linhas fold_left] in *.
    destruct (formatarLinha_nao_vazia d (linhas l)) as (c & s & E & Hs).
    simpl in Hs.
    destruct fuel as [|f]; [rewrite E in Hl; simpl in Hl; lia|].
    pose proof (fgets_formatarLinha d (linhas l) Hd) as Hf.
    rewrite E in Hf, Hl. cbn [carregarLinhas]. rewrite E, Hf.
    apply IH; auto. simpl in Hl. lia.
Qed.

(** ** Balanced saving *)

Lemma escreverNat_meio (l1 l2 : list Livro) (x p : Livro) :
  escreverNat (l1 ++ x :: l2) (List.length l1) p = Some (l1 ++ p :: l2).
Proof.
  induction l1 as [|y l1 IH]; simpl; [reflexivity|now rewrite IH].
Qed.

Lemma escreverVetor_meio (l1 l2 : list Livro) (x p : Livro) :
  escreverVetor (l1 ++ x :: l2) (Z.of_nat (List.length l1)) p =
  Some (l1 ++ p :: l2).
Proof.
  unfold escreverVetor.
  destruct (Z.ltb_spec (Z.of_nat (List.length l1)) 0); [lia|].
  rewrite Nat2Z.id. apply escreverNat_meio.
Qed.

Lemma length_nos (no : Livro) :
  List.length (nos no) = List.length (listarLivrosRecursivo no).
Proof.
  induction no as [|d e IHe r IHr]; simpl; auto.
  rewrite !List.length_app. simpl. lia.
Qed.

Lemma campos_nos (no : Livro) :
  map camposDe (nos no) = map Some (listarLivrosRecursivo no).
Proof.
  induction no as [|d e IHe r IHr]; simpl; auto.
  rewrite !map_app. simpl. now rewrite IHe, IHr.
Qed.

(** [armazenarLivrosEmOrdem] writes the nodes of the tree, in traversal
    order, from [*pos] on, and advances [*pos] by their number. *)
Lemma armazenar_nos (no : Livro) (l1 l2 : list Livro) :
  (List.length (nos no) <= List.length l2)%nat ->
  armazenarLivrosEmOrdem no (l1 ++ l2) (Z.of_nat (List.length l1)) =
  Some ((l1 ++ nos no) ++ skipn (List.length (nos no)) l2,
        Z.of_nat (List.length l1 + List.length (nos no))).
Proof.
  revert l1 l2. induction no as [|d e IHe r IHr]; intros l1 l2 Hl.
  - simpl. now rewrite List.app_nil_r, Nat.add_0_r.
  - cbn [nos] in *. rewrite List.length_app in Hl. cbn [List.length] in Hl.
    cbn [armazenarLivrosEmOrdem]. rewrite IHe by lia.
    destruct (skipn (List.length (nos e)) l2) as [|x l2'] eqn:Es.
    { apply (f_equal (@List.length Livro)) in Es.
      rewrite length_skipn in Es. simpl in Es. lia. }
    rewrite <- List.length_app, escreverVetor_meio.
    replace ((l1 ++ nos e) ++ No d e r :: l2')
      with ((l1 ++ nos e ++ [No d e r]) ++ l2')
      by (rewrite <- !List.app_assoc; reflexivity).
    replace (Z.of_nat (List.length (l1 ++ nos e)) + 1)
      with (Z.of_nat (List.length (l1 ++ nos e ++ [No d e r])))
      by (rewrite !List.length_app; simpl; lia).
    assert (El : l2' = skipn (S (List.length (nos e))) l2).
    { change (S (List.length (nos e))) with (1 + List.length (nos e))%nat.
      rewrite <- skipn_skipn, Es. reflexivity. }
    rewrite IHr.
    + f_equal. f_equal.
      * rewrite El, skipn_skipn, !List.length_app. cbn [List.length].
        rewrite <- !List.app_assoc. simpl.
        replace (List.length (nos r) + S (List.length (nos e)))%nat
          with (List.length (nos e) + S (List.length (nos r)))%nat by lia.
        reflexivity.
      * rewrite !List.length_app. simpl. lia.
    + rewrite El, length_skipn. lia.
Qed.

Lemma armazenar_raiz (no : Livro) :
  armazenarLivrosEmOrdem no (repeat NULL (Z.to_nat (contarLivros no))) 0 =
  Some (nos no, contarLivros no).
Proof.
  pose proof (armazenar_nos no [] (repeat NULL (Z.to_nat (contarLivros no)))) as H.
  rewrite contarLivros_length, Nat2Z.id, repeat_length, <- length_nos in *.
  simpl in H. rewrite H by lia.
  rewrite skipn_all2 by (rewrite repeat_length; lia).
  now rewrite List.app_nil_r.
Qed.

Lemma append_vazio (s : string) : (s ++ EmptyString)%string = s.
Proof.
  induction s as [|c s IH]; simpl; [reflexivity|now rewrite IH].
Qed.

(** On a vector of nodes whose fields are [l0], the recursion writes, after
    the text that is there, the lines of the books at the indices
    [ordemMeios] lists, in that order. *)
Lemma salvarBalanceadoRecursivo_linhas (l0 : list Dados) (vetor : list Livro)
    (fuel : nat) (inicio fim : Z) (arquivo : string) :
  map camposDe vetor = map Some l0 ->
  0 <= inicio -> fim < Z.of_nat (List.length l0) ->
  fim - inicio + 1 <= Z.of_nat fuel ->
  exists l,
    salvarBalanceadoRecursivo fuel vetor inicio fim arquivo =
      Some (arquivo ++ linhas l)%string /\
    map Some l =
      map (fun k => nth_error l0 (Z.to_nat k)) (ordemMeios fuel inicio fim).
Proof.
  intros Hv. revert inicio fim arquivo.
  induction fuel as [|f IH]; intros inicio fim arquivo H0 Hf Hfuel.
  - exists []. cbn [salvarBalanceadoRecursivo ordemMeios].
    destruct (Z.leb_spec inicio fim); [lia|].
    simpl. now rewrite append_vazio.
  - cbn [salvarBalanceadoRecursivo ordemMeios].
    destruct (Z.leb_spec inicio fim) as [Hle|Hgt].
    2:{ exists []. simpl. now rewrite append_vazio. }
    set (meio := (inicio + fim) ÷ 2).
    assert (Hm : inicio <= meio <= fim).
    { unfold meio. Z.to_euclidean_division_equations. lia. }
    assert (Hn : exists d, nth_error l0 (Z.to_nat meio) = Some d).
    { destruct (nth_error l0 (Z.to_nat meio)) eqn:E; eauto.
      apply nth_error_None in E. lia. }
    destruct Hn as (d & Hd).
    assert (Hl : exists e r, lerVetor vetor meio = Some (No d e r)).
    { unfold lerVetor. destruct (Z.ltb_spec meio 0); [lia|].
      pose proof (map_nth_error Some _ _ Hd) as E.
      rewrite <- Hv, nth_error_map in E.
      destruct (nth_error vetor (Z.to_nat meio)) as [[|d' e r]|];
        try discriminate E.
      injection E as ->. eauto. }
    destruct Hl as (e & r & Hl). rewrite Hl.
    destruct (IH inicio (meio - 1) (arquivo ++ formatarLinha d)%string)
      as (l1 & E1 & M1); try lia.
    rewrite E1.
    destruct (IH (meio + 1) fim
                ((arquivo ++ formatarLinha d) ++ linhas l1)%string)
      as (l2 & E2 & M2); try lia.
    rewrite E2.
    exists (d :: l1 ++ l2). split.
    + f_equal. cbn [linhas]. rewrite linhas_app, !append_assoc. reflexivity.
    + cbn [map]. rewrite !map_app, M1, M2, Hd. reflexivity.
Qed.

Lemma intervalo_meio (inicio : Z) (a b : nat) :
  intervalo inicio (a + S b) =
  intervalo inicio a ++
  (inicio + Z.of_nat a) :: intervalo (inicio + Z.of_nat a + 1) b.
Proof.
  revert inicio. induction a as [|a IH]; intros inicio.
  - cbn [Nat.add intervalo app]. now rewrite Z.add_0_r.
  - cbn [Nat.add intervalo app]. rewrite IH. do 3 f_equal; try lia.
    f_equal. lia.
Qed.

Lemma intervalo_indices (pre l : list Dados) :
  map (fun k => nth_error (pre ++ l) (Z.to_nat k))
      (intervalo (Z.of_nat (List.length pre)) (List.length l)) =
  map Some l.
Proof.
  revert pre. induction l as [|x l IH]; intros pre; [reflexivity|].
  cbn [List.length intervalo map]. f_equal.
  - rewrite Nat2Z.id, nth_error_app2, Nat.sub_diag by lia. reflexivity.
  - specialize (IH (pre ++ [x])).
    rewrite <- List.app_assoc, List.length_app in IH. cbn [List.length app] in IH.
    rewrite <- IH. do 2 f_equal. lia.
Qed.

(** Every index of the interval is visited, and visited once. *)
Lemma ordemMeios_permutacao (fuel : nat) (inicio fim : Z) :
  0 <= inicio -> fim - inicio + 1 <= Z.of_nat fuel ->
  Permutation (ordemMeios fuel inicio fim)
              (intervalo inicio (Z.to_nat (fim - inicio + 1))).
Proof.
  revert inicio fim. induction fuel as [|f IH]; intros inicio fim H0 Hf;
    cbn [ordemMeios]; destruct (Z.leb_spec inicio fim) as [Hle|Hgt];
    try lia;
    try (replace (Z.to_nat (fim - inicio + 1)) with 0%nat by lia; constructor).
  set (meio := (inicio + fim) ÷ 2).
  assert (Hm : inicio <= meio <= fim).
  { unfold meio. Z.to_euclidean_division_equations. lia. }
  replace (Z.to_nat (fim - inicio + 1))
    with (Z.to_nat (meio - inicio) + S (Z.to_nat (fim - meio)))%nat by lia.
  rewrite intervalo_meio.
  replace (inicio + Z.of_nat (Z.to_nat (meio - inicio))) with meio by lia.
  apply Permutation_cons_app, Permutation_app.
  - replace (Z.to_nat (meio - inicio))
      with (Z.to_nat (meio - 1 - inicio + 1)) by lia.
    apply IH; lia.
  - replace (Z.to_nat (fim - meio))
      with (Z.to_nat (fim - (meio + 1) + 1)) by lia.
    apply IH; lia.
Qed.

Lemma Permutation_Some (l1 l2 : list Dados) :
  Permutation (map Some l1) (map Some l2) -> Permutation l1 l2.
Proof.
  intros H. apply Permutation_map_inv in H.
  destruct H as (l3 & E & P).
  assert (l1 = l3).
  { clear P. revert l3 E. induction l1 as [|a l1 IH]; intros [|b l3] E;
      try discriminate; auto.
    injection E as -> E. f_equal. auto. }
  subst l3. now symmetry.
Qed.

(** [salvarLivrosBalanceado] always completes; it writes one line per book
    of the tree, in the order of [ordemMeios] over the traversal. *)
Lemma salvarLivrosBalanceado_linhas (no : Livro) (arquivo : string) :
  exists l,
    salvarLivrosBalanceado no arquivo = Some (arquivo ++ linhas l)%string /\
    Permutation l (listarLivrosRecursivo no) /\
    map Some l =
      map (fun k => nth_error (listarLivrosRecursivo no) (Z.to_nat k))
          (ordemMeios (Z.to_nat (contarLivros no)) 0 (contarLivros no - 1)).
Proof.
  unfold salvarLivrosBalanceado. rewrite armazenar_raiz.
  pose proof (contarLivros_length no) as Hn.
  destruct (salvarBalanceadoRecursivo_linhas (listarLivrosRecursivo no)
              (nos no) (Z.to_nat (contarLivros no)) 0 (contarLivros no - 1)
              arquivo (campos_nos no)) as (l & E & M); try lia.
  exists l. repeat split; auto.
  apply Permutation_Some. rewrite M.
  rewrite <- (intervalo_indices [] (listarLivrosRecursivo no)).
  apply Permutation_map. cbn [List.length app Z.of_nat].
  replace (List.length (listarLivrosRecursivo no))
    with (Z.to_nat (contarLivros no - 1 - 0 + 1)) by lia.
  apply ordemMeios_permutacao; lia.
Qed.

(** ** Loading what was saved *)

Lemma forma_inserir (no : Livro) (i : Z) (t a : string) :
  forma (inserirLivroRecursivo no i t a) = inserirForma (forma no) i.
Proof.
  induction no as [|d e IHe r IHr]; simpl; auto.
  comparar; simpl; congruence.
Qed.

Lemma forma_carregarLinha (linha : string) (st : Dados * Biblioteca) :
  forma (raiz (snd (carregarLinha linha st))) =
  inserirForma (forma (raiz (snd st))) (id (snd (sscanf linha (fst st)))).
Proof.
  destruct st as [v bib]. rewrite carregarLinha_eq. cbn [snd fst raiz].
  unfold carregarRegistro. now rewrite forma_atribuir, forma_inserir.
Qed.

Lemma forma_carregarLinhas (l : list Dados) (st : Dados * Biblioteca) :
  forma (raiz (snd (fold_left
                      (fun s d => carregarLinha (formatarLinha d) s) l st))) =
  fold_left inserirForma (map id l) (forma (raiz (snd st))).
Proof.
  revert st. induction l as [|d l IH]; intros st; [reflexivity|].
  cbn [fold_left map]. now rewrite IH, forma_carregarLinha, sscanf_id.
Qed.

Lemma carregarLinhas_validas (l : list Dados) (v : Dados) (bib : Biblioteca) :
  Forall linhaValida l ->
  snd (fold_left (fun s d => carregarLinha (formatarLinha d) s) l (v, bib)) =
  mkBiblioteca (fold_left carregarRegistro l (raiz bib)).
Proof.
  revert v bib. induction l as [|d l IH]; intros v bib Hv.
  - now destruct bib.
  - inversion Hv as [|? ? (Ht & Ha & _) Hv']; subst.
    cbn [fold_left]. rewrite carregarLinha_formatarLinha by assumption.
    now rewrite IH.
Qed.

Lemma abb_carregarRegistros (l : list Dados) (no : Livro) :
  abb no -> abb (fold_left carregarRegistro l no).
Proof.
  revert no. induction l as [|d l IH]; intros no A; simpl; auto.
  now apply IH, abb_carregarRegistro.
Qed.

Lemma listar_carregarRegistros (l : list Dados) (no : Livro) :
  NoDup (map id l) ->
  (forall d, In d l -> ~ In (id d) (ids no)) ->
  forall x, In x (listarLivrosRecursivo (fold_left carregarRegistro l no)) <->
            In x l \/ In x (listarLivrosRecursivo no).
Proof.
  revert no. induction l as [|d l IH]; intros no ND Hfora x; [simpl; tauto|].
  simpl in ND. apply NoDup_cons_iff in ND. destruct ND as [Hd ND].
  cbn [fold_left]. rewrite IH; auto.
  - rewrite listar_carregarRegistro by (apply Hfora; now left).
    simpl. intuition auto.
  - intros z Hz. rewrite ids_carregarRegistro. intros [E|Hin].
    + apply Hd. rewrite <- E. now apply in_map.
    + apply (Hfora z); auto. now right.
Qed.



(** ** Claims on saving and loading *)

Lemma carregarLivros_total (ficheiros : string -> option string) (lixo : Dados)
    (bib : Biblioteca) (nome : string) :
  exists bib1 msgs,
    carregarLivros ficheiros lixo bib nome = Some (bib1, msgs) /\
    (abb (raiz bib) -> abb (raiz bib1)).
Proof.
  unfold carregarLivros. destruct (ficheiros nome) as [arquivo|]; [|eauto].
  destruct (carregarLinhas_total (String.length arquivo) arquivo (lixo, bib)
              (le_n _)) as ([v bib1] & E & A).
  rewrite E. eauto.
Qed.

(** C2.  The search-tree invariant (smaller identifiers on the left, larger
    on the right, at every node), which excludes a repeated identifier, is
    kept by every insertion, by every removal and by every load of a file,
    which always completes. *)
Theorem invariante_preservado (bib : Biblioteca) :
  abb (raiz bib) ->
  (forall i t a,
     abb (raiz (inserirLivro bib i t a)) /\
     NoDup (ids (raiz (inserirLivro bib i t a)))) /\
  (forall i,
     abb (raiz (removerLivro bib i)) /\
     NoDup (ids (raiz (removerLivro bib i)))) /\
  (forall ficheiros lixo nome,
     exists bib1 msgs,
       carregarLivros ficheiros lixo bib nome = Some (bib1, msgs) /\
       abb (raiz bib1) /\ NoDup (ids (raiz bib1))).
Proof.
  intros A. split; [|split].
  - intros i t a. unfold inserirLivro. cbn [raiz]. auto with biblioteca.
  - intros i. unfold removerLivro. cbn [raiz]. auto with biblioteca.
  - intros ficheiros lixo nome.
    destruct (carregarLivros_total ficheiros lixo bib nome)
      as (bib1 & msgs & E & A1).
    exists bib1, msgs. auto with biblioteca.
Qed.

Lemma salvarECarregar_eq (nome : string) (lixo : Dados) (bib : Biblioteca) :
  (forall l, Permutation l (listarLivrosRecursivo (raiz bib)) ->
             Forall linhaInteira l) ->
  exists l st,
    Permutation l (listarLivrosRecursivo (raiz bib)) /\
    map Some l =
      map (fun k => nth_error (listarLivrosRecursivo (raiz bib)) (Z.to_nat k))
          (ordemMeios (Z.to_nat (contarLivros (raiz bib))) 0
             (contarLivros (raiz bib) - 1)) /\
    st = fold_left (fun s d => carregarLinha (formatarLinha d) s) l
           (lixo, criarBiblioteca) /\
    salvarECarregar nome lixo bib = Some (snd st).
Proof.
  intros Hv. unfold salvarECarregar, salvarLivros.
  destruct (salvarLivrosBalanceado_linhas (raiz bib) EmptyString)
    as (l & E & P & M).
  rewrite E. cbn [append].
  unfold carregarLivros, umFicheiro. rewrite String.eqb_refl.
  rewrite carregarLinhas_linhas by auto.
  exists l. eexists. repeat split; eauto.
  now destruct (fold_left _ l _).
Qed.

Lemma Forall_linhaInteira (l l0 : list Dados) :
  Forall linhaInteira l0 -> Permutation l l0 -> Forall linhaInteira l.
Proof.
  intros H P. symmetry in P. exact (Permutation_Forall P H).
Qed.

(** C1, for the text the line format carries.  When the catalogue is a search tree and the title and
    the author of every book are carried unchanged by the line format (not
    empty, without bar or line break, the line within 255 characters),
    saving and then loading into a new catalogue completes and gives a
    search tree whose traversal is the traversal of the saved catalogue:
    the same books with the same four fields, none lost, none repeated. *)
Theorem salvar_carregar_registros (nome : string) (lixo : Dados)
    (bib : Biblioteca) :
  abb (raiz bib) ->
  Forall linhaValida (listarLivrosRecursivo (raiz bib)) ->
  exists bib1,
    salvarECarregar nome lixo bib = Some bib1 /\
    abb (raiz bib1) /\
    listarLivrosRecursivo (raiz bib1) = listarLivrosRecursivo (raiz bib).
Proof.
  intros A Hv.
  assert (Hi : Forall linhaInteira (listarLivrosRecursivo (raiz bib))).
  { eapply Forall_impl; [|exact Hv]. apply linhaValida_inteira. }
  destruct (salvarECarregar_eq nome lixo bib) as (l & st & P & _ & Est & E).
  { intros l P. now apply (Forall_linhaInteira l _ Hi). }
  assert (Hl : Forall linhaValida l).
  { symmetry in P. exact (Permutation_Forall P Hv). }
  pose proof (carregarLinhas_validas l lixo criarBiblioteca Hl) as F.
  rewrite <- Est in F. cbn [raiz criarBiblioteca] in F.
  exists (snd st). rewrite F. cbn [raiz].
  assert (A1 : abb (fold_left carregarRegistro l NULL)).
  { apply abb_carregarRegistros. exact I. }
  split; [now rewrite <- F|]. split; [assumption|].
  apply ordenadas_iguais.
  - now apply abb_ordenada.
  - now apply abb_ordenada.
  - intros x. rewrite listar_carregarRegistros.
    + simpl. split.
      * intros [H|[]]. now apply (Permutation_in _ P).
      * intros H. left. symmetry in P. now apply (Permutation_in _ P).
    + apply (Permutation_NoDup (l := ids (raiz bib))).
      * symmetry. now apply Permutation_map.
      * now apply abb_NoDup.
    + simpl. auto.
Qed.

(** *** Examples *)

(** C1, counterexample.  The catalogue holds the books (1, "A", "B") and
    (2, "", "C").  The line written for the second is [2||C|1]; [sscanf]
    converts the identifier and stops at the empty title, so the book is
    loaded with the title and author left by the previous line. *)
Lemma salvar_carregar_titulo_vazio :
  abb (raiz catalogoTituloVazio) /\
  listarLivrosRecursivo (raiz catalogoTituloVazio) =
    [mkDados 1 "A" "B" 1; mkDados 2 EmptyString "C" 1] /\
  exists bib1,
    salvarECarregar "livros.txt" lixoExemplo catalogoTituloVazio = Some bib1 /\
    listarLivrosRecursivo (raiz bib1) =
      [mkDados 1 "A" "B" 1; mkDados 2 "A" "B" 1] /\
    listarLivrosRecursivo (raiz bib1) <>
      listarLivrosRecursivo (raiz catalogoTituloVazio).
Proof.
  split; [vm_compute; repeat split|]. split; [reflexivity|].
  exists (mkBiblioteca
            (No (mkDados 1 "A" "B" 1) NULL
                (No (mkDados 2 "A" "B" 1) NULL NULL))).
  split; [vm_compute; reflexivity|]. split; [reflexivity|].
  simpl. discriminate.
Qed.

Lemma map_Some_inj (l1 l2 : list Dados) :
  map Some l1 = map Some l2 -> l1 = l2.
Proof.
  revert l2. induction l1 as [|a l1 IH]; intros [|b l2] E;
    try discriminate; auto.
  injection E as -> E. f_equal. auto.
Qed.

(** C6, counterexample.  With the title ["a" ++ nl ++ "9"] on book 1 the
    saved text has the line [9|x|1]; the loaded root has 9, not 6, at its
    right link, and the leaves are at depths 2 and 3. *)
Lemma salvar_carregar_cadeia_quebrada :
  exists bib1,
    salvarECarregar "livros.txt" lixoExemplo (cadeia textosQuebrados)
      = Some bib1 /\
    forma (raiz bib1) =
      Ramo 4 (Ramo 2 (Ramo 1 Vazia Vazia) (Ramo 3 Vazia Vazia))
             (Ramo 9 (Ramo 6 (Ramo 5 Vazia Vazia) (Ramo 7 Vazia Vazia)) Vazia) /\
    folhas 0 (forma (raiz bib1)) = [(1, 2%nat); (3, 2%nat); (5, 3%nat); (7, 3%nat)] /\
    forma (raiz bib1) <> arvoreCheia.
Proof.
  eexists.
  split; [vm_compute; reflexivity|].
  split; [reflexivity|]. split; [reflexivity|]. discriminate.
Qed.

(** C6, for text in one line.  Inserting 1, ..., 7 in increasing order
    gives a chain of right links.  When no title and no author of the
    seven books holds a line break and every line is within 255
    characters, saving that chain and loading it into a new catalogue
    completes with 4 at the root, 2 and 6 at its links, and the leaves
    1, 3, 5, 7 all at depth 2. *)
Theorem salvar_carregar_cadeia (nome : string) (lixo : Dados)
    (textos : Z -> string * string) :
  (forall i, In i [1; 2; 3; 4; 5; 6; 7] -> linhaInteira (livroDe textos i)) ->
  forma (raiz (cadeia textos)) = cadeiaDireita /\
  exists bib1,
    salvarECarregar nome lixo (cadeia textos) = Some bib1 /\
    forma (raiz bib1) = arvoreCheia /\
    folhas 0 (forma (raiz bib1)) =
      [(1, 2%nat); (3, 2%nat); (5, 2%nat); (7, 2%nat)].
Proof.
  intros Hv. split; [reflexivity|].
  assert (L : listarLivrosRecursivo (raiz (cadeia textos)) =
              map (livroDe textos) [1; 2; 3; 4; 5; 6; 7]) by reflexivity.
  assert (N : contarLivros (raiz (cadeia textos)) = 7) by reflexivity.
  destruct (salvarECarregar_eq nome lixo (cadeia textos))
    as (l & st & _ & M & Est & E).
  { intros l P. apply (Forall_linhaInteira l _) in P; auto.
    rewrite L. apply Forall_forall. intros d Hd.
    apply in_map_iff in Hd. destruct Hd as (i & <- & Hi). auto. }
  rewrite L, N in M.
  assert (El : l = map (livroDe textos) [4; 2; 1; 3; 6; 5; 7]).
  { apply map_Some_inj. rewrite M. reflexivity. }
  exists (snd st). split; [assumption|].
  assert (F : forma (raiz (snd st)) = arvoreCheia).
  { rewrite Est, forma_carregarLinhas, El. reflexivity. }
  rewrite F. split; reflexivity.
Qed.


(** *** The whole file *)

(** The loop takes one turn per piece of the file, in order. *)
Lemma carregarLinhas_pedacos (fuel : nat) (arquivo : string)
    (st : Dados * Biblioteca) :
  (String.length arquivo <= fuel)%nat ->
  carregarLinhas fuel arquivo st =
  Some (fold_left (fun s l => carregarLinha l s) (pedacosAux fuel arquivo) st).
Proof.
  revert arquivo st.
  induction fuel as [|f IH]; intros [|c s] st Hl;
    cbn [carregarLinhas pedacosAux]; try reflexivity; [simpl in Hl; lia|].
  pose proof (fgets_consome 254 c s) as Hc.
  destruct (fgets 255 (String c s)) as [linha resto]. cbn [snd] in Hc.
  cbn [fold_left]. apply IH. simpl in Hl. lia.
Qed.

Lemma fold_carregarLinha (ls : list string) (v : Dados) (bib : Biblioteca) :
  fold_left (fun s l => carregarLinha l s) ls (v, bib) =
  (fst (aposLinhas v (raiz bib) ls),
   mkBiblioteca (snd (aposLinhas v (raiz bib) ls))).
Proof.
  unfold aposLinhas. revert v bib.
  induction ls as [|l ls IH]; intros v bib.
  - now destruct bib.
  - cbn [fold_left]. rewrite carregarLinha_eq, IH. reflexivity.
Qed.

(** Loading a file that opens is the fold of the turn over all the pieces
    of the file, followed by the final message. *)
Lemma carregarLivros_pedacos (ficheiros : string -> option string)
    (lixo : Dados) (bib : Biblioteca) (nome arquivo : string) :
  ficheiros nome = Some arquivo ->
  carregarLivros ficheiros lixo bib nome =
  Some (mkBiblioteca (snd (aposLinhas lixo (raiz bib) (pedacos arquivo))),
        [CarregadosComSucesso]).
Proof.
  intros Hf. unfold carregarLivros, pedacos. rewrite Hf.
  rewrite carregarLinhas_pedacos by apply le_n.
  now rewrite fold_carregarLinha.
Qed.

Lemma aposLinhas_app (lixo : Dados) (no : Livro) (ls1 ls2 : list string) :
  aposLinhas lixo no (ls1 ++ ls2) =
  fold_left passoCarga ls2 (aposLinhas lixo no ls1).
Proof.
  unfold aposLinhas. apply fold_left_app.
Qed.


(** Where four fields are converted the locals do not matter. *)
Lemma sscanf_quatro (l : string) (v v' : Dados) :
  fst (sscanf l v) = 4%nat -> sscanf l v' = sscanf l v.
Proof.
  unfold sscanf.
  repeat match goal with
  | |- context [match ?x with _ => _ end] => destruct x
  end; simpl; try discriminate; reflexivity.
Qed.






(** C10.  A line of the file that repeats an identifier overwrites the
    availability, and nothing else.  Take a file that opens, whose pieces
    hold no zero byte, only numerals that are values of [int] and only
    texts that fit the buffers, and whose last piece [l] is converted by
    [sscanf] into the four fields [d] (four conversions overwrite the four
    locals, whatever they held); take the file without that last piece.
    When loading the shorter file leaves a book [d0] behind the identifier
    of [d], loading the whole file completes with the title and the author
    of [d0] and the availability of [d] behind that identifier; the shape
    of the tree and every other book are as after the shorter file. *)
Theorem carregar_duplicado_disponivel (MAX_TITULO MAX_AUTOR : nat)
    (ficheiros1 ficheiros2 : string -> option string) (lixo : Dados)
    (bib bib1 : Biblioteca) (msgs : list Mensagem)
    (nome arquivo1 arquivo2 l : string) (d d0 : Dados) :
  ficheiros1 nome = Some arquivo1 ->
  ficheiros2 nome = Some arquivo2 ->
  pedacos arquivo2 = pedacos arquivo1 ++ [l] ->
  Forall (linhaNoDominio MAX_TITULO MAX_AUTOR) (pedacos arquivo2) ->
  sscanf l lixo = (4%nat, d) ->
  carregarLivros ficheiros1 lixo bib nome = Some (bib1, msgs) ->
  camposDe (buscarLivro bib1 (id d)) = Some d0 ->
  exists bib2,
    carregarLivros ficheiros2 lixo bib nome =
      Some (bib2, [CarregadosComSucesso]) /\
    camposDe (buscarLivro bib2 (id d)) =
      Some (mkDados (id d0) (titulo d0) (autor d0) (disponivel d)) /\
    forma (raiz bib2) = forma (raiz bib1) /\
    forall j, j <> id d ->
      camposDe (buscarLivro bib2 j) = camposDe (buscarLivro bib1 j).
Proof.
  intros Hf1 Hf2 Ep _ Hs H1 Hd.
  rewrite (carregarLivros_pedacos _ _ _ _ _ Hf1) in H1.
  injection H1 as <- _.
  rewrite (carregarLivros_pedacos _ _ _ _ _ Hf2), Ep, aposLinhas_app.
  eexists. split; [reflexivity|].
  unfold buscarLivro in *. cbn [fold_left passoCarga snd raiz] in *.
  set (st := aposLinhas lixo (raiz bib) (pedacos arquivo1)) in *.
  assert (E : sscanf l (fst st) = (4%nat, d)).
  { rewrite <- Hs. apply sscanf_quatro. now rewrite Hs. }
  rewrite E. cbn [snd]. unfold carregarRegistro.
  fold (registro (snd st) (id d)) in Hd.
  assert (Hp : buscarLivroRecursivo (snd st) (id d) <> NULL).
  { unfold registro in Hd. intros N. rewrite N in Hd. discriminate Hd. }
  rewrite (inserir_presente _ _ _ _ Hp).
  split; [|split].
  - fold (registro (atribuirDisponivel (snd st) (id d) (disponivel d)) (id d)).
    now rewrite registro_atribuir_mesmo, Hd.
  - apply forma_atribuir.
  - intros j Hj. now apply registro_atribuir_outro.
Qed.

(** *** The claims at concrete catalogues *)

Ltac linha_ok :=
  unfold linhaValida, linhaInteira, campoValido;
  repeat split; try discriminate; try reflexivity;
  apply Nat.leb_le; reflexivity.

Lemma catalogoExemplo_abb : abb (raiz catalogoExemplo).
Proof.
  vm_compute. repeat split.
Defined.

Lemma inserir_duplicado_sem_efeito_witness :
  abb (raiz catalogoExemplo) /\ In 2 (ids (raiz catalogoExemplo)) /\
  inserirLivro catalogoExemplo 2 "X" "Y" = catalogoExemplo.
Proof.
  assert (H : In 2 (ids (raiz catalogoExemplo))) by (cbn; lia).
  split; [exact catalogoExemplo_abb|]. split; [exact H|].
  exact (proj1 (inserir_duplicado_sem_efeito catalogoExemplo 2 "X" "Y"
                  catalogoExemplo_abb H)).
Defined.

Lemma remover_ausente_sem_efeito_witness :
  ~ In 9 (ids (raiz catalogoExemplo)) /\
  removerLivro catalogoExemplo 9 = catalogoExemplo.
Proof.
  assert (H : ~ In 9 (ids (raiz catalogoExemplo))) by (cbn; lia).
  split; [exact H|].
  exact (proj1 (remover_ausente_sem_efeito catalogoExemplo 9 H)).
Defined.

Lemma remover_presente_witness :
  In 2 (ids (raiz catalogoExemplo)) /\
  buscarLivro (removerLivro catalogoExemplo 2) 2 = NULL /\
  contarLivros (raiz (removerLivro catalogoExemplo 2)) = 3 - 1.
Proof.
  assert (H : In 2 (ids (raiz catalogoExemplo))) by (cbn; lia).
  split; [exact H|].
  destruct (remover_presente catalogoExemplo 2 catalogoExemplo_abb H)
    as (H1 & H2 & _).
  split; [exact H1|exact H2].
Defined.

Lemma inserir_buscar_listar_witness :
  camposDe (buscarLivro catalogoExemplo 1) = Some (mkDados 1 "A" "a" 1) /\
  StronglySorted Z.lt
    (map id (listarLivrosRecursivo (raiz catalogoExemplo))).
Proof.
  assert (ND : NoDup (map chave [(2, "B", "b"); (1, "A", "a"); (3, "C", "c")]%string)).
  { repeat (apply NoDup_cons; [cbn; lia|]). apply NoDup_nil. }
  destruct (inserir_buscar_listar _ ND) as (H1 & H2 & _).
  split; [|exact H2].
  apply (H1 (1, "A", "a")%string). cbn. auto.
Defined.

Lemma invariante_preservado_witness :
  abb (raiz (inserirLivro catalogoExemplo 5 "E" "e")) /\
  abb (raiz (removerLivro catalogoExemplo 2)).
Proof.
  destruct (invariante_preservado catalogoExemplo catalogoExemplo_abb)
    as (H1 & H2 & _).
  split; [apply H1|apply H2].
Defined.

Lemma salvar_carregar_registros_witness :
  Forall linhaValida (listarLivrosRecursivo (raiz catalogoExemplo)) /\
  exists bib1,
    salvarECarregar "livros.txt" lixoExemplo catalogoExemplo = Some bib1 /\
    abb (raiz bib1) /\
    listarLivrosRecursivo (raiz bib1) =
      listarLivrosRecursivo (raiz catalogoExemplo).
Proof.
  assert (V : Forall linhaValida (listarLivrosRecursivo (raiz catalogoExemplo))).
  { change (Forall linhaValida
              [mkDados 1 "A" "a" 1; mkDados 2 "B" "b" 1; mkDados 3 "C" "c" 1]).
    repeat (apply Forall_cons; [linha_ok|]). apply Forall_nil. }
  split; [exact V|].
  exact (salvar_carregar_registros "livros.txt" lixoExemplo catalogoExemplo
           catalogoExemplo_abb V).
Defined.

Lemma salvar_carregar_cadeia_witness :
  exists bib1,
    salvarECarregar "livros.txt" lixoExemplo
      (cadeia (fun _ => ("t", "a")%string)) = Some bib1 /\
    forma (raiz bib1) = arvoreCheia /\
    folhas 0 (forma (raiz bib1)) =
      [(1, 2%nat); (3, 2%nat); (5, 2%nat); (7, 2%nat)].
Proof.
  refine (proj2 (salvar_carregar_cadeia "livros.txt" lixoExemplo
           (fun _ => ("t", "a")%string) _)).
  intros i Hi. cbn in Hi.
  destruct Hi as [<-|[<-|[<-|[<-|[<-|[<-|[<-|[]]]]]]]]; linha_ok.
Defined.

Ltac linha_no_dominio :=
  split;
  [ reflexivity
  | let v := fresh "v" in
    intros v; split; [|split; [|split]]; intros Hn;
    first [ solve [exfalso; vm_compute in Hn; discriminate Hn]
          | solve [exfalso; apply Nat.leb_le in Hn; vm_compute in Hn;
                   discriminate Hn]
          | solve [apply Nat.ltb_lt; vm_compute; reflexivity]
          | solve [vm_compute; split; discriminate] ] ].


Lemma emprestar_devolver_resultados_witness :
  camposDe (buscarLivro catalogoExemplo 2) = Some (mkDados 2 "B" "b" 1) /\
  exists bib1 bib2,
    emprestarLivro catalogoExemplo 2 = (bib1, EmprestadoComSucesso) /\
    emprestarLivro bib1 2 = (bib1, NaoDisponivel) /\
    devolverLivro bib1 2 = (bib2, DevolvidoComSucesso) /\
    devolverLivro bib2 2 = (bib2, JaDisponivel).
Proof.
  assert (H : camposDe (buscarLivro catalogoExemplo 2)
              = Some (mkDados 2 "B" "b" 1)) by reflexivity.
  assert (N : disponivel (mkDados 2 "B" "b" 1) <> 0) by (cbn; lia).
  split; [exact H|].
  destruct (proj2 (proj2 (emprestar_devolver_resultados catalogoExemplo 2))
              _ H N) as (bib1 & bib2 & E1 & _ & _ & _ & E2 & E3 & _ & E4).
  exists bib1, bib2. auto.
Defined.

Lemma carregar_duplicado_disponivel_witness :
  pedacos arquivoRepetido =
    pedacos ("1|A|B|1" ++ nl) ++ [("1|X|Y|0" ++ nl)%string] /\
  Forall (linhaNoDominio 100 100) (pedacos arquivoRepetido) /\
  sscanf ("1|X|Y|0" ++ nl) lixoExemplo = (4%nat, mkDados 1 "X" "Y" 0) /\
  carregarLivros (umFicheiro "livros.txt" ("1|A|B|1" ++ nl)) lixoExemplo
    criarBiblioteca "livros.txt" =
    Some (mkBiblioteca (No (mkDados 1 "A" "B" 1) NULL NULL),
          [CarregadosComSucesso]) /\
  exists bib2,
    carregarLivros (umFicheiro "livros.txt" arquivoRepetido) lixoExemplo
      criarBiblioteca "livros.txt" = Some (bib2, [CarregadosComSucesso]) /\
    camposDe (buscarLivro bib2 1) = Some (mkDados 1 "A" "B" 0).
Proof.
  assert (P : pedacos arquivoRepetido =
              pedacos ("1|A|B|1" ++ nl) ++ [("1|X|Y|0" ++ nl)%string])
    by reflexivity.
  assert (D : Forall (linhaNoDominio 100 100) (pedacos arquivoRepetido)).
  { change (Forall (linhaNoDominio 100 100)
              [("1|A|B|1" ++ nl)%string; ("1|X|Y|0" ++ nl)%string]).
    repeat (apply Forall_cons; [linha_no_dominio|]). apply Forall_nil. }
  assert (S : sscanf ("1|X|Y|0" ++ nl) lixoExemplo
              = (4%nat, mkDados 1 "X" "Y" 0)) by reflexivity.
  assert (L : carregarLivros (umFicheiro "livros.txt" ("1|A|B|1" ++ nl))
                lixoExemplo criarBiblioteca "livros.txt" =
              Some (mkBiblioteca (No (mkDados 1 "A" "B" 1) NULL NULL),
                    [CarregadosComSucesso])) by reflexivity.
  split; [exact P|]. split; [exact D|]. split; [exact S|]. split; [exact L|].
  destruct (carregar_duplicado_disponivel 100 100
              (umFicheiro "livros.txt" ("1|A|B|1" ++ nl))
              (umFicheiro "livros.txt" arquivoRepetido)
              lixoExemplo criarBiblioteca _ _ "livros.txt" _ _ _
              (mkDados 1 "X" "Y" 0) (mkDados 1 "A" "B" 1)
              eq_refl eq_refl P D S L eq_refl)
    as (bib2 & E1 & E2 & _).
  exists bib2. split; [exact E1|exact E2].
Defined.

(** * Further properties of the code *)

(** ** Searching, inserting and removing in any catalogue *)

(** X1.  In a search tree the search is exact: the node it returns for an
    identifier carries that identifier and is a book of the catalogue;
    every book of the catalogue is returned, with its own fields, by the
    search for its identifier; and for an identifier that no book carries
    the search returns the null pointer. *)
Theorem buscar_exato (bib : Biblioteca) :
  abb (raiz bib) ->
  (forall i d, camposDe (buscarLivro bib i) = Some d ->
     id d = i /\ In d (listarLivrosRecursivo (raiz bib))) /\
  (forall d, In d (listarLivrosRecursivo (raiz bib)) ->
     camposDe (buscarLivro bib (id d)) = Some d) /\
  (forall i, ~ In i (ids (raiz bib)) -> buscarLivro bib i = NULL).
Proof.
  intros A. split; [|split].
  - intros i d H. now apply registro_Some.
  - intros d H. now apply registro_presente.
  - intros i H. now apply buscar_ausente.
Qed.

Lemma encontrarMenor_sem_esquerda (no : Livro) (temp : Dados) (e r : Livro) :
  encontrarMenor no = No temp e r -> e = NULL.
Proof.
  induction no as [|d e0 IHe r0 _]; simpl; [discriminate|].
  destruct e0 as [|d1 e1 r1]; auto.
  now intros [= _ <- _].
Qed.

(** X2.  On a search tree that is not empty [encontrarMenor] returns a
    node of the tree that has no left link and whose identifier is below
    the identifier of every other book; it returns the null pointer for
    the empty tree only. *)
Theorem encontrarMenor_minimo (no : Livro) :
  abb no ->
  (encontrarMenor no = NULL <-> no = NULL) /\
  (forall temp e r, encontrarMenor no = No temp e r ->
     e = NULL /\
     In temp (listarLivrosRecursivo no) /\
     forall d, In d (listarLivrosRecursivo no) -> d = temp \/ id temp < id d).
Proof.
  intros A. split.
  - destruct no as [|d e r]; [tauto|]. split; [|discriminate].
    intros H. now apply encontrarMenor_No in H.
  - intros temp e r E. split; [eapply encontrarMenor_sem_esquerda; eauto|].
    destruct (encontrarMenor_cabeca _ _ _ _ E) as (l & Hl).
    apply abb_ordenada in A. unfold ids in A. rewrite Hl in *.
    simpl in A. apply StronglySorted_inv in A. destruct A as [_ A].
    rewrite Forall_map, Forall_forall in A.
    split; [now left|].
    intros d [->|Hd]; auto.
Qed.

Lemma contar_inserir (no : Livro) (i : Z) (t a : string) :
  ~ In i (ids no) ->
  contarLivros (inserirLivroRecursivo no i t a) = contarLivros no + 1.
Proof.
  induction no as [|d e IHe r IHr]; intros H; [reflexivity|].
  rewrite ids_No in H. cbn [inserirLivroRecursivo].
  comparar; cbn [contarLivros].
  - rewrite IHe by tauto. lia.
  - rewrite IHr by tauto. lia.
Qed.

(** X3.  Inserting an identifier that no book of the catalogue carries,
    whatever the shape of the tree: the search for it then returns the new
    book, available; the search for any other identifier returns what it
    returned before; the count is one more; and the traversal holds the
    new book and the old ones. *)
Theorem inserir_novo (bib : Biblioteca) (i : Z) (t a : string) :
  ~ In i (ids (raiz bib)) ->
  camposDe (buscarLivro (inserirLivro bib i t a) i) = Some (mkDados i t a 1) /\
  (forall j, j <> i ->
     camposDe (buscarLivro (inserirLivro bib i t a) j) =
     camposDe (buscarLivro bib j)) /\
  contarLivros (raiz (inserirLivro bib i t a)) = contarLivros (raiz bib) + 1 /\
  (forall x, In x (listarLivrosRecursivo (raiz (inserirLivro bib i t a))) <->
             x = mkDados i t a 1 \/ In x (listarLivrosRecursivo (raiz bib))).
Proof.
  intros H. unfold buscarLivro, inserirLivro. cbn [raiz].
  split; [|split; [|split]].
  - fold (registro (inserirLivroRecursivo (raiz bib) i t a) i).
    now rewrite registro_inserir_mesmo, registro_ausente.
  - intros j Hj. now apply registro_inserir_outro.
  - now apply contar_inserir.
  - intros x. now apply listar_inserir.
Qed.

Lemma remover_inserir (no : Livro) (i : Z) (t a : string) :
  ~ In i (ids no) ->
  removerLivroRecursivo (inserirLivroRecursivo no i t a) i = no.
Proof.
  induction no as [|d e IHe r IHr]; intros H.
  - simpl. comparar. reflexivity.
  - rewrite ids_No in H. cbn [inserirLivroRecursivo].
    comparar; cbn [removerLivroRecursivo]; comparar.
    + rewrite IHe by tauto. reflexivity.
    + rewrite IHr by tauto. reflexivity.
Qed.

(** X4.  Inserting an identifier that no book carries and removing it
    again gives back the catalogue as it was, node for node. *)
Theorem inserir_remover (bib : Biblioteca) (i : Z) (t a : string) :
  ~ In i (ids (raiz bib)) ->
  removerLivro (inserirLivro bib i t a) i = bib.
Proof.
  intros H. unfold removerLivro, inserirLivro. cbn [raiz].
  rewrite remover_inserir by assumption. now destruct bib.
Qed.

(** X5.  Removing from a search tree leaves the other books alone: the
    search for any other identifier returns the same fields as before.
    Removing the same identifier a second time changes nothing. *)
Theorem remover_outros (bib : Biblioteca) (i : Z) :
  abb (raiz bib) ->
  (forall j, j <> i ->
     camposDe (buscarLivro (removerLivro bib i) j) =
     camposDe (buscarLivro bib j)) /\
  removerLivro (removerLivro bib i) i = removerLivro bib i.
Proof.
  intros A. unfold buscarLivro, removerLivro. cbn [raiz]. split.
  - intros j Hj.
    fold (registro (removerLivroRecursivo (raiz bib) i) j).
    fold (registro (raiz bib) j).
    destruct (in_dec Z.eq_dec j (ids (raiz bib))) as [Hin|Hout].
    + apply In_ids in Hin. destruct Hin as (d & Hd & <-).
      rewrite (registro_presente _ _ A Hd).
      apply registro_presente; [now apply abb_remover|].
      rewrite listar_remover by assumption.
      apply filter_In. split; auto. unfold outro.
      destruct (Z.eqb_spec (id d) i); [contradiction|reflexivity].
    + rewrite (registro_ausente _ _ Hout). apply registro_ausente.
      rewrite ids_remover by assumption. tauto.
  - f_equal. apply remover_ausente.
    rewrite ids_remover by assumption. tauto.
Qed.

Lemma atribuir_atribuir (no : Livro) (i v w : Z) :
  atribuirDisponivel (atribuirDisponivel no i v) i w =
  atribuirDisponivel no i w.
Proof.
  induction no as [|d e IHe r IHr]; simpl; auto.
  comparar; simpl; comparar; congruence.
Qed.

(** X6.  Lending a book and taking it back.  For a book that is there with
    a non-zero availability, the loan followed by the return succeeds
    twice and leaves the catalogue with 1 as the availability of that book
    and nothing else changed; so the catalogue is exactly as before when
    the availability was 1.  [devolverLivro] alone prints "not found" for
    an identifier the search misses and "already available" for a book
    with a non-zero availability, and changes nothing in both cases. *)
Theorem emprestar_e_devolver (bib : Biblioteca) (i : Z) :
  (forall d, camposDe (buscarLivro bib i) = Some d -> disponivel d <> 0 ->
     devolverLivro (fst (emprestarLivro bib i)) i =
       (mkBiblioteca (atribuirDisponivel (raiz bib) i 1), DevolvidoComSucesso) /\
     snd (emprestarLivro bib i) = EmprestadoComSucesso /\
     (disponivel d = 1 ->
        devolverLivro (fst (emprestarLivro bib i)) i = (bib, DevolvidoComSucesso))) /\
  (buscarLivro bib i = NULL -> devolverLivro bib i = (bib, NaoEncontrado)) /\
  (forall d, camposDe (buscarLivro bib i) = Some d -> disponivel d <> 0 ->
     devolverLivro bib i = (bib, JaDisponivel)).
Proof.
  destruct bib as [no]. unfold emprestarLivro, devolverLivro, buscarLivro.
  cbn [raiz]. split; [|split].
  - intros d Hd Hz.
    assert (E : exists e r, buscarLivroRecursivo no i = No d e r).
    { apply registro_buscar. exact Hd. }
    destruct E as (e & r & E). rewrite E.
    destruct (Z.eqb_spec (disponivel d) 0) as [|_]; [contradiction|].
    cbn [fst snd raiz].
    rewrite (buscar_atribuir _ _ 0 _ _ _ E). cbn [comDisponivel disponivel].
    rewrite Z.eqb_refl, atribuir_atribuir.
    split; [reflexivity|]. split; [reflexivity|].
    intros H1. rewrite <- H1.
    now rewrite (atribuir_mesmo_valor no i d Hd).
  - intros ->. reflexivity.
  - intros d Hd Hz.
    destruct (buscarLivroRecursivo no i) as [|d0 e r]; [discriminate|].
    injection Hd as ->.
    destruct (Z.eqb_spec (disponivel d) 0) as [|_]; [contradiction|].
    reflexivity.
Qed.

(** ** Filling the vector and writing the file *)

Lemma escreverNat_Some (vetor vetor1 : list Livro) (k : nat) (p : Livro) :
  escreverNat vetor k p = Some vetor1 ->
  (k < List.length vetor)%nat /\ List.length vetor1 = List.length vetor.
Proof.
  revert k vetor1. induction vetor as [|x vetor IH]; intros k vetor1;
    [discriminate|].
  destruct k as [|k]; simpl.
  - intros [= <-]. simpl. lia.
  - destruct (escreverNat vetor k p) as [resto|] eqn:E; [|discriminate].
    intros [= <-]. destruct (IH _ _ E). simpl. lia.
Qed.

Lemma escreverVetor_Some (vetor vetor1 : list Livro) (k : Z) (p : Livro) :
  escreverVetor vetor k p = Some vetor1 ->
  0 <= k < Z.of_nat (List.length vetor) /\
  List.length vetor1 = List.length vetor.
Proof.
  unfold escreverVetor. destruct (Z.ltb_spec k 0); [discriminate|].
  intros E. apply escreverNat_Some in E. lia.
Qed.

(** Where [armazenarLivrosEmOrdem] completes, every store was inside the
    vector. *)
Lemma armazenar_Some (no : Livro) (vetor vetor1 : list Livro) (pos pos1 : Z) :
  0 <= pos ->
  armazenarLivrosEmOrdem no vetor pos = Some (vetor1, pos1) ->
  pos1 = pos + contarLivros no /\
  List.length vetor1 = List.length vetor /\
  (no <> NULL -> pos1 <= Z.of_nat (List.length vetor)).
Proof.
  revert vetor vetor1 pos pos1.
  induction no as [|d e IHe r IHr]; intros vetor vetor1 pos pos1 H0.
  - simpl. intros [= <- <-]. repeat split; try lia. congruence.
  - cbn [armazenarLivrosEmOrdem contarLivros].
    destruct (armazenarLivrosEmOrdem e vetor pos) as [[v1 p1]|] eqn:Ee;
      [|discriminate].
    destruct (IHe _ _ _ _ H0 Ee) as (P1 & L1 & _).
    pose proof (contarLivros_length e) as Ce.
    destruct (escreverVetor v1 p1 (No d e r)) as [v2|] eqn:Ew; [|discriminate].
    destruct (escreverVetor_Some _ _ _ _ Ew) as (B2 & L2).
    intros Er.
    assert (H1 : 0 <= p1 + 1) by lia.
    destruct (IHr _ _ _ _ H1 Er) as (P3 & L3 & B3).
    pose proof (contarLivros_length r) as Cr.
    repeat split; try lia.
    intros _. destruct r as [|dr er rr].
    + simpl in P3. lia.
    + assert (No dr er rr <> NULL) by discriminate. specialize (B3 H). lia.
Qed.

(** X7.  [armazenarLivrosEmOrdem] started at position 0.  In a vector with
    at least as many slots as the tree has nodes it stores the nodes in
    traversal order in the first slots, leaves the other slots as they
    were and ends with the position at the count.  In a shorter vector it
    stores outside the vector. *)
Theorem armazenar_no_vetor (no : Livro) (vetor : list Livro) :
  (contarLivros no <= Z.of_nat (List.length vetor) ->
     armazenarLivrosEmOrdem no vetor 0 =
     Some (nos no ++ skipn (Z.to_nat (contarLivros no)) vetor,
           contarLivros no)) /\
  (Z.of_nat (List.length vetor) < contarLivros no ->
     armazenarLivrosEmOrdem no vetor 0 = None).
Proof.
  pose proof (contarLivros_length no) as C.
  rewrite <- length_nos in C. split.
  - intros H.
    pose proof (armazenar_nos no [] vetor) as E.
    cbn [List.length app Z.of_nat Nat.add] in E.
    rewrite E by lia. rewrite C, Nat2Z.id. reflexivity.
  - intros H.
    destruct (armazenarLivrosEmOrdem no vetor 0) as [[v1 p1]|] eqn:E;
      [|reflexivity].
    destruct (armazenar_Some _ _ _ _ _ (Z.le_refl 0) E) as (P & _ & B).
    destruct no as [|d e r]; [simpl in H; lia|].
    assert (N : No d e r <> NULL) by discriminate.
    specialize (B N). lia.
Qed.

(** X8.  [salvarLivros] always completes.  It keeps the text that is in
    the file and adds one line per book of the tree, each book once; the
    first line is the line of the book in the middle of the traversal;
    for the empty tree it adds nothing. *)
Theorem salvarLivros_linhas (no : Livro) (arquivo : string) :
  exists l,
    salvarLivros no arquivo = Some (arquivo ++ linhas l)%string /\
    Permutation l (listarLivrosRecursivo no) /\
    (no = NULL -> l = []) /\
    (forall d,
       nth_error (listarLivrosRecursivo no)
         (Z.to_nat ((contarLivros no - 1) ÷ 2)) = Some d ->
       exists l', l = d :: l').
Proof.
  unfold salvarLivros.
  destruct (salvarLivrosBalanceado_linhas no arquivo) as (l & E & P & M).
  exists l. split; [assumption|]. split; [assumption|]. split.
  - intros ->. simpl in P. now apply Permutation_nil.
  - intros d Hd.
    pose proof (contarLivros_length no) as C.
    assert (Hn : (Z.to_nat ((contarLivros no - 1) ÷ 2)
                  < List.length (listarLivrosRecursivo no))%nat).
    { apply nth_error_Some. congruence. }
    assert (Hc : 1 <= contarLivros no) by lia.
    destruct (Z.to_nat (contarLivros no)) as [|f] eqn:F; [lia|].
    cbn [ordemMeios] in M.
    destruct (Z.leb_spec 0 (contarLivros no - 1)); [|lia].
    cbn [map] in M. rewrite Z.add_0_l, Hd in M.
    destruct l as [|d' l']; [discriminate M|].
    injection M as -> _. eauto.
Qed.

(** X9.  The text [salvarLivros] writes depends on the books only, not on
    the shape of the tree: two trees with the same traversal give the same
    file. *)
Theorem salvarLivros_canonico (no1 no2 : Livro) (arquivo : string) :
  listarLivrosRecursivo no1 = listarLivrosRecursivo no2 ->
  salvarLivros no1 arquivo = salvarLivros no2 arquivo.
Proof.
  intros H. unfold salvarLivros.
  destruct (salvarLivrosBalanceado_linhas no1 arquivo) as (l1 & E1 & _ & M1).
  destruct (salvarLivrosBalanceado_linhas no2 arquivo) as (l2 & E2 & _ & M2).
  rewrite E1, E2.
  assert (C : contarLivros no1 = contarLivros no2).
  { now rewrite !contarLivros_length, H. }
  rewrite H, C, <- M2 in M1. apply map_Some_inj in M1. now subst.
Qed.

(** X10.  What is written for a book is read back as that book.  When the
    title and the author are not empty and hold no bar and no line break
    and the line has at most 255 characters, [fgets] takes the written
    line, and nothing more, from the front of the file, and [sscanf]
    converts it into the four fields that were written, whatever the
    locals held before. *)
Theorem linha_ida_e_volta (d v : Dados) (resto : string) :
  linhaValida d ->
  fgets 255 (formatarLinha d ++ resto) = (formatarLinha d, resto) /\
  sscanf (formatarLinha d) v = (4%nat, d).
Proof.
  intros H. split.
  - apply fgets_formatarLinha. now apply linhaValida_inteira.
  - destruct H as (Ht & Ha & _). now apply sscanf_formatarLinha.
Qed.

(** ** Loading what was saved: the same catalogue, the least height *)

Lemma carregarRegistro_presente (no : Livro) (d : Dados) :
  registro no (id d) = Some d -> carregarRegistro no d = no.
Proof.
  intros H. unfold carregarRegistro. rewrite inserir_presente.
  - now apply atribuir_mesmo_valor.
  - unfold registro in H. intros E. rewrite E in H. discriminate H.
Qed.

Lemma carregarRegistros_presentes (l : list Dados) (no : Livro) :
  (forall d, In d l -> registro no (id d) = Some d) ->
  fold_left carregarRegistro l no = no.
Proof.
  induction l as [|d l IH]; intros H; [reflexivity|].
  cbn [fold_left]. rewrite carregarRegistro_presente by (apply H; now left).
  apply IH. intros x Hx. apply H. now right.
Qed.

(** X11.  Saving a catalogue and loading the file into that same catalogue
    changes nothing.  When the catalogue is a search tree and every book
    has a title and an author that the line format carries, saving
    completes, and loading the saved file into the catalogue that was
    saved completes with the final message and the catalogue as it was,
    node for node. *)
Theorem salvar_e_recarregar (bib : Biblioteca) :
  abb (raiz bib) ->
  Forall linhaValida (listarLivrosRecursivo (raiz bib)) ->
  exists arquivo,
    salvarLivros (raiz bib) EmptyString = Some arquivo /\
    forall lixo nome,
      carregarLivros (umFicheiro nome arquivo) lixo bib nome =
      Some (bib, [CarregadosComSucesso]).
Proof.
  intros A Hv. unfold salvarLivros.
  destruct (salvarLivrosBalanceado_linhas (raiz bib) EmptyString)
    as (l & E & P & _).
  cbn [append] in E. exists (linhas l). split; [assumption|].
  intros lixo nome. unfold carregarLivros, umFicheiro.
  rewrite String.eqb_refl.
  assert (Hl : Forall linhaValida l).
  { symmetry in P. exact (Permutation_Forall P Hv). }
  rewrite carregarLinhas_linhas;
    [|eapply Forall_impl; [apply linhaValida_inteira|exact Hl]|apply le_n].
  pose proof (carregarLinhas_validas l lixo bib Hl) as F.
  destruct (fold_left _ l (lixo, bib)) as [v bib1]. cbn [snd] in F.
  rewrite F, carregarRegistros_presentes; [now destruct bib|].
  intros d Hd. apply registro_presente; [assumption|].
  now apply (Permutation_in _ P).
Qed.

Lemma ordemMeios_In (fuel : nat) (inicio fim k : Z) :
  In k (ordemMeios fuel inicio fim) -> inicio <= k <= fim.
Proof.
  revert inicio fim. induction fuel as [|f IH]; intros inicio fim;
    cbn [ordemMeios]; destruct (Z.leb_spec inicio fim) as [Hle|Hgt];
    try (cbn [In]; tauto).
  set (meio := (inicio + fim) ÷ 2).
  assert (Hm : inicio <= meio <= fim).
  { unfold meio. Z.to_euclidean_division_equations. lia. }
  intros [<-|Hk]; [lia|].
  apply in_app_or in Hk. destruct Hk as [Hk|Hk]; apply IH in Hk; lia.
Qed.

Lemma nth_crescente (s : list Z) (a b : nat) :
  StronglySorted Z.lt s -> (a < b < List.length s)%nat ->
  nth a s 0 < nth b s 0.
Proof.
  intros H. revert a b. induction H as [|x s HS IH HF]; intros a b Hab.
  - simpl in Hab. lia.
  - destruct b as [|b]; [lia|]. simpl in Hab. destruct a as [|a]; simpl.
    + rewrite Forall_forall in HF. apply HF, nth_In. lia.
    + apply IH. lia.
Qed.

Lemma fold_inserirForma_direita (l : list Z) (j : Z) (e r : Forma) :
  Forall (fun x => j < x) l ->
  fold_left inserirForma l (Ramo j e r) =
  Ramo j e (fold_left inserirForma l r).
Proof.
  revert r. induction l as [|x l IH]; intros r H; [reflexivity|].
  inversion H as [|? ? Hx Hl]; subst. cbn [fold_left inserirForma].
  comparar. now apply IH.
Qed.

(** Below a root, the smaller identifiers build the left subtree and the
    larger ones the right subtree. *)
Lemma fold_inserirForma_Ramo (l1 l2 : list Z) (j : Z) (e r : Forma) :
  Forall (fun x => x < j) l1 -> Forall (fun x => j < x) l2 ->
  fold_left inserirForma (l1 ++ l2) (Ramo j e r) =
  Ramo j (fold_left inserirForma l1 e) (fold_left inserirForma l2 r).
Proof.
  revert e. induction l1 as [|x l1 IH]; intros e H1 H2.
  - now apply fold_inserirForma_direita.
  - inversion H1 as [|? ? Hx Hl]; subst. cbn [app fold_left inserirForma].
    comparar. now apply IH.
Qed.

(** Inserting the identifiers of an increasing list in the order of the
    midpoints builds the tree of the midpoints. *)
Lemma fold_equilibrada (s : list Z) (fuel : nat) (inicio fim : Z) :
  StronglySorted Z.lt s ->
  0 <= inicio -> fim < Z.of_nat (List.length s) ->
  fim - inicio + 1 <= Z.of_nat fuel ->
  fold_left inserirForma
    (map (fun k => nth (Z.to_nat k) s 0) (ordemMeios fuel inicio fim)) Vazia =
  equilibrada fuel s inicio fim.
Proof.
  intros HS. revert inicio fim.
  induction fuel as [|f IH]; intros inicio fim H0 Hf Hfuel;
    cbn [ordemMeios equilibrada];
    destruct (Z.leb_spec inicio fim) as [Hle|Hgt]; try reflexivity.
  set (meio := (inicio + fim) ÷ 2).
  assert (Hm : inicio <= meio <= fim).
  { unfold meio. Z.to_euclidean_division_equations. lia. }
  cbn [map fold_left inserirForma]. rewrite map_app, fold_inserirForma_Ramo.
  - rewrite !IH by lia. reflexivity.
  - apply Forall_forall. intros x Hx. apply in_map_iff in Hx.
    destruct Hx as (k & <- & Hk). apply ordemMeios_In in Hk.
    apply nth_crescente; auto. lia.
  - apply Forall_forall. intros x Hx. apply in_map_iff in Hx.
    destruct Hx as (k & <- & Hk). apply ordemMeios_In in Hk.
    apply nth_crescente; auto. lia.
Qed.

Lemma nosForma_equilibrada (s : list Z) (fuel : nat) (inicio fim : Z) :
  inicio <= fim + 1 -> fim - inicio + 1 <= Z.of_nat fuel ->
  Z.of_nat (nosForma (equilibrada fuel s inicio fim)) = fim - inicio + 1.
Proof.
  revert inicio fim.
  induction fuel as [|f IH]; intros inicio fim H0 Hfuel;
    cbn [equilibrada];
    destruct (Z.leb_spec inicio fim) as [Hle|Hgt];
    try (cbn [nosForma]; lia).
  set (meio := (inicio + fim) ÷ 2).
  assert (Hm : inicio <= meio <= fim).
  { unfold meio. Z.to_euclidean_division_equations. lia. }
  cbn [nosForma]. rewrite Nat2Z.inj_succ, Nat2Z.inj_add, !IH by lia. lia.
Qed.

(** The tree of the midpoints of [n] identifiers has the least height a
    binary tree of [n] nodes can have. *)
Lemma altura_equilibrada (s : list Z) (fuel : nat) (inicio fim : Z) :
  0 <= inicio -> inicio <= fim + 1 -> fim - inicio + 1 <= Z.of_nat fuel ->
  (fim - inicio + 1) + 1 <=
    2 ^ Z.of_nat (alturaForma (equilibrada fuel s inicio fim))
  <= 2 * (fim - inicio + 1) + 1.
Proof.
  revert inicio fim.
  induction fuel as [|f IH]; intros inicio fim Hpos H0 Hfuel;
    cbn [equilibrada];
    destruct (Z.leb_spec inicio fim) as [Hle|Hgt];
    try (cbn [alturaForma Z.of_nat]; change (2 ^ 0) with 1; lia).
  set (meio := (inicio + fim) ÷ 2).
  assert (Hm : inicio <= meio <= fim /\
               meio - inicio <= fim - meio <= meio - inicio + 1).
  { unfold meio. Z.to_euclidean_division_equations. lia. }
  assert (He := IH inicio (meio - 1)). assert (Hd := IH (meio + 1) fim).
  specialize (He ltac:(lia) ltac:(lia) ltac:(lia)).
  specialize (Hd ltac:(lia) ltac:(lia) ltac:(lia)).
  set (ha := alturaForma (equilibrada f s inicio (meio - 1))) in *.
  set (hb := alturaForma (equilibrada f s (meio + 1) fim)) in *.
  cbn [alturaForma]. fold ha hb.
  rewrite Nat2Z.inj_succ, Z.pow_succ_r by lia.
  assert (Hb : hb = O \/ exists h, hb = S h) by (destruct hb; eauto).
  destruct (Nat.max_spec ha hb) as [[Hlt ->]|[Hge ->]].
  - destruct Hb as [->|(h & Eh)]; [lia|].
    rewrite Eh, Nat2Z.inj_succ, Z.pow_succ_r in * by lia.
    set (p := 2 ^ Z.of_nat h) in *. lia.
  - assert (Hp : 2 ^ Z.of_nat hb <= 2 ^ Z.of_nat ha)
      by (apply Z.pow_le_mono_r; lia).
    lia.
Qed.

Lemma ids_dos_meios (l l0 : list Dados) (ks : list Z) :
  map Some l = map (fun k => nth_error l0 (Z.to_nat k)) ks ->
  map id l = map (fun k => nth (Z.to_nat k) (map id l0) 0) ks.
Proof.
  revert l. induction ks as [|k ks IH]; intros [|d l] E; try discriminate;
    [reflexivity|].
  cbn [map] in *. injection E as Ed E. f_equal; auto.
  symmetry in Ed. apply (map_nth_error id) in Ed.
  symmetry. now apply nth_error_nth.
Qed.

Lemma contar_nosForma (no : Livro) :
  contarLivros no = Z.of_nat (nosForma (forma no)).
Proof.
  induction no as [|d e IHe r IHr]; [reflexivity|].
  cbn [contarLivros forma nosForma]. rewrite IHe, IHr. lia.
Qed.

(** X12.  Loading what was saved gives a tree of the least height.  When
    the catalogue is a search tree of [n] books, no title or author holds
    a line break and every line has at most 255 characters, saving and
    loading into a new catalogue completes with a tree of [n] nodes whose
    height [h] satisfies [n + 1 <= 2 ^ h <= 2 * n + 1]: no binary tree
    with [n] nodes is lower.  This holds whatever shape the saved tree
    had. *)
Theorem salvar_carregar_altura (nome : string) (lixo : Dados) (bib : Biblioteca) :
  abb (raiz bib) ->
  Forall linhaInteira (listarLivrosRecursivo (raiz bib)) ->
  exists bib1,
    salvarECarregar nome lixo bib = Some bib1 /\
    contarLivros (raiz bib1) = contarLivros (raiz bib) /\
    contarLivros (raiz bib) + 1 <= 2 ^ Z.of_nat (altura (raiz bib1))
      <= 2 * contarLivros (raiz bib) + 1.
Proof.
  intros A Hv.
  destruct (salvarECarregar_eq nome lixo bib) as (l & st & P & M & Est & E).
  { intros l P. now apply (Forall_linhaInteira l _ Hv). }
  exists (snd st). split; [assumption|].
  pose proof (contarLivros_length (raiz bib)) as C.
  set (n := contarLivros (raiz bib)) in *.
  assert (F : forma (raiz (snd st)) =
              equilibrada (Z.to_nat n) (ids (raiz bib)) 0 (n - 1)).
  { rewrite Est, forma_carregarLinhas. cbn [forma raiz snd criarBiblioteca].
    rewrite (ids_dos_meios _ _ _ M).
    apply fold_equilibrada; try lia.
    - now apply abb_ordenada.
    - unfold ids. rewrite length_map. lia. }
  unfold altura. rewrite contar_nosForma, F. split.
  - rewrite nosForma_equilibrada; lia.
  - pose proof (altura_equilibrada (ids (raiz bib)) (Z.to_nat n) 0 (n - 1)) as H.
    specialize (H ltac:(lia) ltac:(lia) ltac:(lia)). lia.
Qed.

(** ** Printing by levels *)

Lemma ehNo_naoNulo (p : Livro) : Forall ehNo (naoNulo p).
Proof.
  destruct p; simpl; repeat constructor.
Qed.

Lemma ehNo_filhos (p : Livro) : Forall ehNo (filhos p).
Proof.
  destruct p as [|d e r]; simpl; [constructor|].
  apply Forall_app. split; apply ehNo_naoNulo.
Qed.

Lemma ehNo_filhos_fila (q : list Livro) : Forall ehNo (flat_map filhos q).
Proof.
  induction q as [|p q IH]; simpl; [constructor|].
  apply Forall_app. split; [apply ehNo_filhos|assumption].
Qed.

Lemma nos_naoNulo (p : Livro) : flat_map nos (naoNulo p) = nos p.
Proof.
  destruct p; simpl; [reflexivity|now rewrite List.app_nil_r].
Qed.

Lemma tamanho_app (q1 q2 : list Livro) :
  tamanho (q1 ++ q2) = (tamanho q1 + tamanho q2)%nat.
Proof.
  unfold tamanho. now rewrite flat_map_app, List.length_app.
Qed.

Lemma tamanho_filhos (d : Dados) (e r : Livro) :
  tamanho (filhos (No d e r)) = (List.length (nos e) + List.length (nos r))%nat.
Proof.
  unfold tamanho, filhos.
  now rewrite flat_map_app, !nos_naoNulo, List.length_app.
Qed.

Lemma tamanho_cons (d : Dados) (e r : Livro) (q : list Livro) :
  tamanho (No d e r :: q) = S (tamanho (filhos (No d e r)) + tamanho q).
Proof.
  rewrite tamanho_filhos. unfold tamanho. cbn [flat_map nos].
  rewrite !List.length_app. cbn [List.length]. lia.
Qed.

Lemma tamanho_ehNo (q : list Livro) :
  Forall ehNo q -> (List.length q <= tamanho q)%nat.
Proof.
  induction 1 as [|p q Hp _ IH]; [simpl; lia|].
  destruct p as [|d e r]; [destruct Hp|].
  rewrite tamanho_cons. simpl. lia.
Qed.

Lemma tamanho_filhos_fila (q : list Livro) :
  Forall ehNo q ->
  tamanho q = (List.length q + tamanho (flat_map filhos q))%nat.
Proof.
  induction 1 as [|p q Hp _ IH]; [reflexivity|].
  destruct p as [|d e r]; [destruct Hp|].
  rewrite tamanho_cons. cbn [flat_map List.length].
  rewrite tamanho_app, IH. lia.
Qed.

Lemma length_filhos (d : Dados) (e r : Livro) :
  (List.length (filhos (No d e r)) <= tamanho (filhos (No d e r)))%nat.
Proof.
  apply tamanho_ehNo, ehNo_filhos.
Qed.

Lemma lerVetor_meio (pre rest : list Livro) (p : Livro) :
  lerVetor (pre ++ p :: rest) (Z.of_nat (List.length pre)) = Some p.
Proof.
  unfold lerVetor. destruct (Z.ltb_spec (Z.of_nat (List.length pre)) 0); [lia|].
  rewrite Nat2Z.id, nth_error_app2, Nat.sub_diag by lia. reflexivity.
Qed.

Lemma escreverNat_fora (vetor : list Livro) (k : nat) (p : Livro) :
  (List.length vetor <= k)%nat -> escreverNat vetor k p = None.
Proof.
  revert k. induction vetor as [|x vetor IH]; intros k H; [reflexivity|].
  destruct k as [|k]; simpl in *; [lia|]. rewrite IH by lia. reflexivity.
Qed.

Lemma escreverVetor_fora (vetor : list Livro) (p : Livro) :
  escreverVetor vetor (Z.of_nat (List.length vetor)) p = None.
Proof.
  unfold escreverVetor.
  destruct (Z.ltb_spec (Z.of_nat (List.length vetor)) 0); [reflexivity|].
  rewrite Nat2Z.id. now apply escreverNat_fora.
Qed.

(** The two stores of a turn of the loop, when the block has room for the
    links that are not null. *)
Lemma enfileirar_filhos (a rest : list Livro) (d : Dados) (e r : Livro) :
  (List.length (filhos (No d e r)) <= List.length rest)%nat ->
  match enfileirar (a ++ rest) (Z.of_nat (List.length a)) e with
  | Some (fila1, fim1) => enfileirar fila1 fim1 r
  | None => None
  end =
  Some (a ++ filhos (No d e r) ++ skipn (List.length (filhos (No d e r))) rest,
        Z.of_nat (List.length a + List.length (filhos (No d e r)))).
Proof.
  unfold filhos.
  destruct e as [|de ee re]; destruct r as [|dr er rr];
    cbn [naoNulo app List.length skipn enfileirar]; intros H.
  - now rewrite Nat.add_0_r.
  - destruct rest as [|x rest]; [simpl in H; lia|].
    rewrite escreverVetor_meio. do 2 f_equal. lia.
  - destruct rest as [|x rest]; [simpl in H; lia|].
    rewrite escreverVetor_meio. do 2 f_equal. lia.
  - destruct rest as [|x [|y rest]]; try (simpl in H; lia).
    rewrite escreverVetor_meio. cbn [enfileirar].
    replace (a ++ No de ee re :: y :: rest)
      with ((a ++ [No de ee re]) ++ y :: rest)
      by (now rewrite <- List.app_assoc).
    replace (Z.of_nat (List.length a) + 1)
      with (Z.of_nat (List.length (a ++ [No de ee re])))
      by (rewrite List.length_app; simpl; lia).
    rewrite escreverVetor_meio, <- List.app_assoc.
    rewrite List.length_app. cbn [List.length app]. do 2 f_equal. lia.
Qed.

(** The two stores of a turn, when the block has no room for them. *)
Lemma enfileirar_filhos_fora (a rest : list Livro) (d : Dados) (e r : Livro) :
  (List.length rest < List.length (filhos (No d e r)))%nat ->
  match enfileirar (a ++ rest) (Z.of_nat (List.length a)) e with
  | Some (fila1, fim1) => enfileirar fila1 fim1 r
  | None => None
  end = None.
Proof.
  unfold filhos.
  destruct e as [|de ee re]; destruct r as [|dr er rr];
    cbn [naoNulo app List.length enfileirar]; intros H.
  - lia.
  - destruct rest as [|x rest]; [|simpl in H; lia].
    now rewrite List.app_nil_r, escreverVetor_fora.
  - destruct rest as [|x rest]; [|simpl in H; lia].
    now rewrite List.app_nil_r, escreverVetor_fora.
  - destruct rest as [|x [|y rest]]; try (simpl in H; lia).
    + now rewrite List.app_nil_r, escreverVetor_fora.
    + rewrite escreverVetor_meio. cbn [enfileirar].
      replace (Z.of_nat (List.length a) + 1)
        with (Z.of_nat (List.length (a ++ [No de ee re])))
        by (rewrite List.length_app; simpl; lia).
      now rewrite escreverVetor_fora.
Qed.

(** While the block has room, the queue in the block behaves as the queue
    in the list. *)
Lemma percorrerFila_lista (fuel : nat) (pre q rest : list Livro)
    (saida out : list (Z * string)) :
  Forall ehNo q ->
  larguraLista fuel q = Some out ->
  (tamanho q - List.length q <= List.length rest)%nat ->
  percorrerFila fuel (pre ++ q ++ rest) (Z.of_nat (List.length pre))
    (Z.of_nat (List.length (pre ++ q))) saida = Some (saida ++ out).
Proof.
  revert pre q rest saida out.
  induction fuel as [|f IH]; intros pre [|p q'] rest saida out Hq Hl Hr;
    cbn [percorrerFila]; rewrite List.length_app; cbn [List.length];
    try (rewrite Nat.add_0_r, Z.ltb_irrefl; injection Hl as <-;
         now rewrite List.app_nil_r);
    try discriminate Hl.
  apply Forall_cons_iff in Hq. destruct Hq as [Hp Hq].
  destruct p as [|d e r]; [destruct Hp|].
  destruct (Z.ltb_spec (Z.of_nat (List.length pre))
              (Z.of_nat (List.length pre + S (List.length q')))); [|lia].
  cbn [app]. rewrite lerVetor_meio.
  cbn [larguraLista] in Hl.
  destruct (larguraLista f (q' ++ filhos (No d e r))) as [out'|] eqn:El;
    [|discriminate Hl].
  injection Hl as <-.
  rewrite tamanho_cons in Hr. cbn [List.length] in Hr.
  pose proof (length_filhos d e r) as Hc.
  pose proof (tamanho_ehNo q' Hq) as Hq'.
  replace (pre ++ No d e r :: q' ++ rest)
    with ((pre ++ No d e r :: q') ++ rest)
    by (now rewrite <- List.app_assoc).
  replace (Z.of_nat (List.length pre + S (List.length q')))
    with (Z.of_nat (List.length (pre ++ No d e r :: q')))
    by (rewrite List.length_app; reflexivity).
  pose proof (enfileirar_filhos (pre ++ No d e r :: q') rest d e r
                ltac:(lia)) as Henq.
  revert Henq.
  destruct (enfileirar _ _ e) as [[f1 k1]|]; intros Henq;
    [|discriminate Henq].
  rewrite Henq. clear Henq f1 k1.
  replace ((pre ++ No d e r :: q') ++
           filhos (No d e r) ++
           skipn (List.length (filhos (No d e r))) rest)
    with ((pre ++ [No d e r]) ++ (q' ++ filhos (No d e r)) ++
          skipn (List.length (filhos (No d e r))) rest)
    by (now rewrite <- !List.app_assoc).
  replace (Z.of_nat (List.length pre) + 1)
    with (Z.of_nat (List.length (pre ++ [No d e r])))
    by (rewrite List.length_app; simpl; lia).
  replace (Z.of_nat (List.length (pre ++ No d e r :: q') +
                     List.length (filhos (No d e r))))
    with (Z.of_nat (List.length ((pre ++ [No d e r]) ++
                                 (q' ++ filhos (No d e r)))))
    by (rewrite !List.length_app; simpl; lia).
  rewrite (IH _ _ _ _ out').
  - now rewrite <- List.app_assoc.
  - apply Forall_app. split; [assumption|apply ehNo_filhos].
  - assumption.
  - rewrite tamanho_app, List.length_app, length_skipn. lia.
Qed.

(** When the trees of the queue have more nodes than the block has room
    for, a store falls outside the block. *)
Lemma percorrerFila_fora (fuel : nat) (pre q rest : list Livro)
    (saida : list (Z * string)) :
  Forall ehNo q ->
  (List.length rest < tamanho q - List.length q)%nat ->
  percorrerFila fuel (pre ++ q ++ rest) (Z.of_nat (List.length pre))
    (Z.of_nat (List.length (pre ++ q))) saida = None.
Proof.
  revert pre q rest saida.
  induction fuel as [|f IH]; intros pre [|p q'] rest saida Hq Hr;
    try (simpl in Hr; lia);
    cbn [percorrerFila]; rewrite List.length_app; cbn [List.length];
    destruct (Z.ltb_spec (Z.of_nat (List.length pre))
                (Z.of_nat (List.length pre + S (List.length q'))));
    try lia; [reflexivity|].
  apply Forall_cons_iff in Hq. destruct Hq as [Hp Hq].
  destruct p as [|d e r]; [destruct Hp|].
  cbn [app]. rewrite lerVetor_meio.
  rewrite tamanho_cons in Hr. cbn [List.length] in Hr.
  pose proof (length_filhos d e r) as Hc.
  pose proof (tamanho_ehNo q' Hq) as Hq'.
  replace (pre ++ No d e r :: q' ++ rest)
    with ((pre ++ No d e r :: q') ++ rest)
    by (now rewrite <- List.app_assoc).
  replace (Z.of_nat (List.length pre + S (List.length q')))
    with (Z.of_nat (List.length (pre ++ No d e r :: q')))
    by (rewrite List.length_app; reflexivity).
  destruct (Nat.lt_ge_cases (List.length rest)
              (List.length (filhos (No d e r)))) as [Hlt|Hge].
  - pose proof (enfileirar_filhos_fora (pre ++ No d e r :: q') rest d e r
                  Hlt) as Henq.
    revert Henq.
    destruct (enfileirar _ _ e) as [[f1 k1]|]; intros Henq; [|reflexivity].
    now rewrite Henq.
  - pose proof (enfileirar_filhos (pre ++ No d e r :: q') rest d e r
                  ltac:(lia)) as Henq.
    revert Henq.
    destruct (enfileirar _ _ e) as [[f1 k1]|]; intros Henq;
      [|discriminate Henq].
    rewrite Henq. clear Henq f1 k1.
    replace ((pre ++ No d e r :: q') ++
             filhos (No d e r) ++
             skipn (List.length (filhos (No d e r))) rest)
      with ((pre ++ [No d e r]) ++ (q' ++ filhos (No d e r)) ++
            skipn (List.length (filhos (No d e r))) rest)
      by (now rewrite <- !List.app_assoc).
    replace (Z.of_nat (List.length pre) + 1)
      with (Z.of_nat (List.length (pre ++ [No d e r])))
      by (rewrite List.length_app; simpl; lia).
    replace (Z.of_nat (List.length (pre ++ No d e r :: q') +
                       List.length (filhos (No d e r))))
      with (Z.of_nat (List.length ((pre ++ [No d e r]) ++
                                   (q' ++ filhos (No d e r)))))
      by (rewrite !List.length_app; simpl; lia).
    apply IH.
    + apply Forall_app. split; [assumption|apply ehNo_filhos].
    + rewrite tamanho_app, List.length_app, length_skipn. lia.
Qed.

Lemma nivel_naoNulo (k : nat) (p : Livro) :
  flat_map (nivel k) (naoNulo p) = nivel k p.
Proof.
  destruct p; simpl; [reflexivity|now rewrite List.app_nil_r].
Qed.

Lemma nivelFila_S (k : nat) (q : list Livro) :
  nivelFila (S k) q = nivelFila k (flat_map filhos q).
Proof.
  unfold nivelFila. induction q as [|p q IH]; [reflexivity|].
  cbn [flat_map]. rewrite flat_map_app, IH. f_equal.
  destruct p as [|d e r]; [reflexivity|].
  unfold filhos. now rewrite flat_map_app, !nivel_naoNulo.
Qed.

Lemma niveis_desloca (q : list Livro) (h a : nat) :
  flat_map (fun k => nivelFila k q) (seq (S a) h) =
  flat_map (fun k => nivelFila k (flat_map filhos q)) (seq a h).
Proof.
  revert a. induction h as [|h IH]; intros a; [reflexivity|].
  cbn [seq flat_map]. now rewrite IH, nivelFila_S.
Qed.

Lemma niveisFila_S (h : nat) (q : list Livro) :
  niveisFila (S h) q = nivelFila 0 q ++ niveisFila h (flat_map filhos q).
Proof.
  unfold niveisFila. cbn [seq flat_map]. now rewrite niveis_desloca.
Qed.

Lemma nivelFila_0 (d : Dados) (e r : Livro) (q : list Livro) :
  nivelFila 0 (No d e r :: q) = linhaNivel d :: nivelFila 0 q.
Proof.
  reflexivity.
Qed.

(** The list queue prints the roots of the queue before anything below
    them. *)
Lemma largura_nivel (q c : list Livro) (fuel : nat) :
  Forall ehNo q ->
  larguraLista (List.length q + fuel) (q ++ c) =
  match larguraLista fuel (c ++ flat_map filhos q) with
  | Some saida => Some (nivelFila 0 q ++ saida)
  | None => None
  end.
Proof.
  intros Hq. revert c. induction Hq as [|p q Hp _ IH]; intros c.
  - cbn [List.length Nat.add app flat_map]. rewrite List.app_nil_r.
    now destruct (larguraLista fuel c).
  - destruct p as [|d e r]; [destruct Hp|].
    cbn [List.length Nat.add app larguraLista flat_map].
    rewrite <- List.app_assoc, IH, <- List.app_assoc.
    destruct (larguraLista fuel _); reflexivity.
Qed.

Lemma In_naoNulo (p x : Livro) : In x (naoNulo p) -> x = p.
Proof.
  destruct p; simpl; [tauto|]. intros [<-|[]]. reflexivity.
Qed.

Lemma altura_filhos (h : nat) (q : list Livro) :
  (forall p, In p q -> (altura p <= S h)%nat) ->
  forall p, In p (flat_map filhos q) -> (altura p <= h)%nat.
Proof.
  intros H p Hp. apply in_flat_map in Hp. destruct Hp as (x & Hx & Hp).
  specialize (H x Hx). destruct x as [|d e r]; [destruct Hp|].
  unfold altura in *. cbn [forma alturaForma] in H.
  unfold filhos in Hp. apply in_app_or in Hp.
  destruct Hp as [Hp|Hp]; apply In_naoNulo in Hp; subst p; lia.
Qed.

(** The list queue prints level by level. *)
Lemma largura_niveis (h : nat) (q : list Livro) :
  Forall ehNo q ->
  (forall p, In p q -> (altura p <= h)%nat) ->
  larguraLista (tamanho q) q = Some (niveisFila h q).
Proof.
  revert q. induction h as [|h IH]; intros q Hq Ha.
  - destruct q as [|p q]; [reflexivity|].
    apply Forall_cons_iff in Hq. destruct Hq as [Hp _].
    destruct p as [|d e r]; [destruct Hp|].
    specialize (Ha _ (or_introl eq_refl)). unfold altura in Ha.
    cbn [forma alturaForma] in Ha. lia.
  - rewrite tamanho_filhos_fila by assumption.
    pose proof (largura_nivel q [] (tamanho (flat_map filhos q)) Hq) as E.
    rewrite List.app_nil_r in E. rewrite E. cbn [app]. rewrite IH.
    + now rewrite niveisFila_S.
    + apply ehNo_filhos_fila.
    + now apply altura_filhos.
Qed.

Lemma niveisFila_porNiveis (no : Livro) :
  niveisFila (altura no) [no] = porNiveis no.
Proof.
  unfold niveisFila, porNiveis, nivelFila. apply flat_map_ext.
  intros k. cbn [flat_map]. now rewrite List.app_nil_r.
Qed.

Lemma tamanho_raiz (no : Livro) :
  tamanho [no] = Z.to_nat (contarLivros no).
Proof.
  unfold tamanho. cbn [flat_map]. rewrite List.app_nil_r, length_nos.
  now rewrite contarLivros_length, Nat2Z.id.
Qed.

Lemma imprimirPorNiveis_fila (no : Livro) :
  no <> NULL ->
  imprimirPorNiveis no =
  percorrerFila (tamanho [no]) ([] ++ [no] ++ repeat NULL 999)
    (Z.of_nat (List.length (@nil Livro)))
    (Z.of_nat (List.length ([] ++ [no]))) [].
Proof.
  intros H. destruct no as [|d e r]; [congruence|].
  unfold imprimirPorNiveis. rewrite <- tamanho_raiz.
  change (repeat NULL 1000) with (NULL :: repeat NULL 999).
  reflexivity.
Qed.

Lemma flat_map_soma {A : Type} (f g : nat -> list A) (l : list nat) :
  Permutation (flat_map (fun k => f k ++ g k) l)
              (flat_map f l ++ flat_map g l).
Proof.
  induction l as [|k l IH]; [constructor|].
  cbn [flat_map]. rewrite IH, <- !List.app_assoc.
  apply Permutation_app_head.
  rewrite !List.app_assoc. apply Permutation_app_tail, Permutation_app_comm.
Qed.

Lemma nivel_fundo (k : nat) (no : Livro) :
  (altura no <= k)%nat -> nivel k no = [].
Proof.
  revert k. induction no as [|d e IHe r IHr]; intros k H; [reflexivity|].
  unfold altura in *. cbn [forma alturaForma] in H.
  destruct k as [|k]; [lia|]. cbn [nivel].
  rewrite IHe, IHr by lia. reflexivity.
Qed.

(** The levels hold every book of the tree once. *)
Lemma niveis_permutacao (no : Livro) (h : nat) :
  (altura no <= h)%nat ->
  Permutation (flat_map (fun k => nivel k no) (seq 0 h))
              (map linhaNivel (listarLivrosRecursivo no)).
Proof.
  revert h. induction no as [|d e IHe r IHr]; intros h H.
  - cbn [nivel listarLivrosRecursivo map].
    induction (seq 0 h) as [|k l IH]; [constructor|exact IH].
  - unfold altura in *. cbn [forma alturaForma] in H.
    destruct h as [|h]; [lia|].
    cbn [seq flat_map nivel listarLivrosRecursivo].
    rewrite map_app. cbn [map app].
    apply Permutation_cons_app.
    rewrite <- seq_shift, flat_map_concat_map, map_map, <- flat_map_concat_map.
    cbn [nivel]. rewrite flat_map_soma.
    apply Permutation_app; [apply IHe|apply IHr]; lia.
Qed.

(** X13.  For a tree of at most 1000 nodes [imprimirPorNiveis] completes
    and prints the books level by level: the root, then the books at depth
    1 from left to right, then those at depth 2, and so on; every book of
    the tree is printed once.  For the empty tree it prints nothing. *)
Theorem imprimirPorNiveis_niveis (no : Livro) :
  contarLivros no <= 1000 ->
  imprimirPorNiveis no = Some (porNiveis no) /\
  Permutation (porNiveis no) (map linhaNivel (listarLivrosRecursivo no)).
Proof.
  intros H. split; [|now apply niveis_permutacao].
  destruct no as [|d e r]; [reflexivity|].
  rewrite imprimirPorNiveis_fila by discriminate.
  rewrite (percorrerFila_lista _ _ _ _ _ (porNiveis (No d e r))).
  - reflexivity.
  - repeat constructor.
  - rewrite <- niveisFila_porNiveis. apply largura_niveis.
    + repeat constructor.
    + intros p [<-|[]]. lia.
  - rewrite tamanho_raiz, repeat_length. cbn [List.length]. lia.
Qed.

(** X14.  The queue of [imprimirPorNiveis] is a block of 1000 pointers
    whose indices only grow: for a tree of more than 1000 nodes a store
    falls outside the block, whatever the shape of the tree. *)
Theorem imprimirPorNiveis_fora (no : Livro) :
  1000 < contarLivros no -> imprimirPorNiveis no = None.
Proof.
  intros H. destruct no as [|d e r]; [simpl in H; lia|].
  rewrite imprimirPorNiveis_fila by discriminate.
  apply percorrerFila_fora.
  - repeat constructor.
  - rewrite tamanho_raiz, repeat_length. cbn [List.length]. lia.
Qed.

(** ** The further properties at concrete catalogues *)

Lemma catalogoExemplo_linhas :
  Forall linhaValida (listarLivrosRecursivo (raiz catalogoExemplo)).
Proof.
  change (Forall linhaValida
            [mkDados 1 "A" "a" 1; mkDados 2 "B" "b" 1; mkDados 3 "C" "c" 1]).
  repeat (apply Forall_cons; [linha_ok|]). apply Forall_nil.
Defined.

Lemma buscar_exato_witness :
  camposDe (buscarLivro catalogoExemplo 3) = Some (mkDados 3 "C" "c" 1) /\
  buscarLivro catalogoExemplo 9 = NULL.
Proof.
  destruct (buscar_exato catalogoExemplo catalogoExemplo_abb) as (_ & H2 & H3).
  split.
  - apply (H2 (mkDados 3 "C" "c" 1)). cbn. auto.
  - apply H3. cbn. lia.
Defined.

Lemma encontrarMenor_minimo_witness :
  encontrarMenor (raiz catalogoExemplo) = No (mkDados 1 "A" "a" 1) NULL NULL /\
  In (mkDados 1 "A" "a" 1) (listarLivrosRecursivo (raiz catalogoExemplo)).
Proof.
  assert (E : encontrarMenor (raiz catalogoExemplo)
              = No (mkDados 1 "A" "a" 1) NULL NULL) by reflexivity.
  split; [exact E|].
  exact (proj1 (proj2 (proj2 (encontrarMenor_minimo (raiz catalogoExemplo)
                                catalogoExemplo_abb) _ _ _ E))).
Defined.

Lemma inserir_novo_witness :
  ~ In 5 (ids (raiz catalogoExemplo)) /\
  camposDe (buscarLivro (inserirLivro catalogoExemplo 5 "E" "e") 5) =
    Some (mkDados 5 "E" "e" 1) /\
  contarLivros (raiz (inserirLivro catalogoExemplo 5 "E" "e")) =
    contarLivros (raiz catalogoExemplo) + 1.
Proof.
  assert (H : ~ In 5 (ids (raiz catalogoExemplo))) by (cbn; lia).
  split; [exact H|].
  destruct (inserir_novo catalogoExemplo 5 "E" "e" H) as (H1 & _ & H3 & _).
  split; [exact H1|exact H3].
Defined.

Lemma inserir_remover_witness :
  ~ In 5 (ids (raiz catalogoExemplo)) /\
  removerLivro (inserirLivro catalogoExemplo 5 "E" "e") 5 = catalogoExemplo.
Proof.
  assert (H : ~ In 5 (ids (raiz catalogoExemplo))) by (cbn; lia).
  split; [exact H|].
  exact (inserir_remover catalogoExemplo 5 "E" "e" H).
Defined.

Lemma remover_outros_witness :
  camposDe (buscarLivro (removerLivro catalogoExemplo 2) 3) =
    camposDe (buscarLivro catalogoExemplo 3) /\
  removerLivro (removerLivro catalogoExemplo 2) 2 = removerLivro catalogoExemplo 2.
Proof.
  destruct (remover_outros catalogoExemplo 2 catalogoExemplo_abb) as (H1 & H2).
  split; [|exact H2]. apply H1. lia.
Defined.

Lemma emprestar_e_devolver_witness :
  camposDe (buscarLivro catalogoExemplo 2) = Some (mkDados 2 "B" "b" 1) /\
  devolverLivro (fst (emprestarLivro catalogoExemplo 2)) 2 =
    (catalogoExemplo, DevolvidoComSucesso).
Proof.
  assert (H : camposDe (buscarLivro catalogoExemplo 2)
              = Some (mkDados 2 "B" "b" 1)) by reflexivity.
  assert (N : disponivel (mkDados 2 "B" "b" 1) <> 0) by (cbn; lia).
  split; [exact H|].
  destruct (proj1 (emprestar_e_devolver catalogoExemplo 2) _ H N)
    as (_ & _ & H3).
  apply H3. reflexivity.
Defined.

Lemma armazenar_no_vetor_witness :
  armazenarLivrosEmOrdem (raiz catalogoExemplo) [NULL; NULL; NULL; NULL] 0 =
    Some (nos (raiz catalogoExemplo) ++ [NULL], 3) /\
  armazenarLivrosEmOrdem (raiz catalogoExemplo) [NULL; NULL] 0 = None.
Proof.
  destruct (armazenar_no_vetor (raiz catalogoExemplo) [NULL; NULL; NULL; NULL])
    as (H1 & _).
  destruct (armazenar_no_vetor (raiz catalogoExemplo) [NULL; NULL])
    as (_ & H2).
  split; [apply H1|apply H2]; cbn; lia.
Defined.

Lemma salvarLivros_canonico_witness :
  forma (raiz catalogoExemplo) <> forma (raiz catalogoCadeia) /\
  salvarLivros (raiz catalogoExemplo) EmptyString =
  salvarLivros (raiz catalogoCadeia) EmptyString.
Proof.
  split; [discriminate|].
  apply (salvarLivros_canonico (raiz catalogoExemplo) (raiz catalogoCadeia)).
  reflexivity.
Defined.

Lemma linha_ida_e_volta_witness :
  linhaValida (mkDados 2 "B" "b" 1) /\
  sscanf (formatarLinha (mkDados 2 "B" "b" 1)) lixoExemplo =
    (4%nat, mkDados 2 "B" "b" 1).
Proof.
  assert (H : linhaValida (mkDados 2 "B" "b" 1)) by linha_ok.
  split; [exact H|].
  exact (proj2 (linha_ida_e_volta (mkDados 2 "B" "b" 1) lixoExemplo
                  EmptyString H)).
Defined.

Lemma salvar_e_recarregar_witness :
  exists arquivo,
    salvarLivros (raiz catalogoExemplo) EmptyString = Some arquivo /\
    carregarLivros (umFicheiro "livros.txt" arquivo) lixoExemplo
      catalogoExemplo "livros.txt" =
    Some (catalogoExemplo, [CarregadosComSucesso]).
Proof.
  destruct (salvar_e_recarregar catalogoExemplo catalogoExemplo_abb
              catalogoExemplo_linhas) as (arquivo & H1 & H2).
  exists arquivo. split; [exact H1|apply H2].
Defined.

Lemma catalogoCadeia_abb : abb (raiz catalogoCadeia).
Proof.
  vm_compute. repeat split.
Defined.

Lemma salvar_carregar_altura_witness :
  altura (raiz catalogoCadeia) = 3%nat /\
  exists bib1,
    salvarECarregar "livros.txt" lixoExemplo catalogoCadeia = Some bib1 /\
    contarLivros (raiz catalogoCadeia) + 1 <= 2 ^ Z.of_nat (altura (raiz bib1))
      <= 2 * contarLivros (raiz catalogoCadeia) + 1.
Proof.
  split; [reflexivity|].
  assert (V : Forall linhaInteira (listarLivrosRecursivo (raiz catalogoCadeia))).
  { change (Forall linhaInteira
              [mkDados 1 "A" "a" 1; mkDados 2 "B" "b" 1; mkDados 3 "C" "c" 1]).
    repeat (apply Forall_cons; [linha_ok|]). apply Forall_nil. }
  destruct (salvar_carregar_altura "livros.txt" lixoExemplo catalogoCadeia
              catalogoCadeia_abb V) as (bib1 & H1 & _ & H3).
  exists bib1. split; [exact H1|exact H3].
Defined.

Lemma imprimirPorNiveis_niveis_witness :
  contarLivros (raiz catalogoExemplo) <= 1000 /\
  imprimirPorNiveis (raiz catalogoExemplo) =
    Some [(2, "B"%string); (1, "A"%string); (3, "C"%string)].
Proof.
  assert (H : contarLivros (raiz catalogoExemplo) <= 1000) by (cbn; lia).
  split; [exact H|].
  exact (proj1 (imprimirPorNiveis_niveis (raiz catalogoExemplo) H)).
Defined.

Lemma imprimirPorNiveis_fora_witness :
  1000 < contarLivros (cadeiaDe 1001 1) /\
  imprimirPorNiveis (cadeiaDe 1001 1) = None.
Proof.
  assert (H : 1000 < contarLivros (cadeiaDe 1001 1)) by (vm_compute; reflexivity).
  split; [exact H|].
  exact (imprimirPorNiveis_fora (cadeiaDe 1001 1) H).
Defined.
